(** * Paraxial tracing of the liquid-filled lens container (lab-03/simulation.py)

    A shallow embedding of [refract], [trace_system], [build_systems],
    [predict_focals] and [error_function].

    Numbers.  Every number the script handles is an IEEE-754 binary64 value,
    carried here by Rocq's primitive [float].  Python tells two kinds apart at
    run time, and the kind decides what a division by zero does:
      - a Python [float] (the module constants, [np.inf], the literal 1.333):
        [x / 0.0] raises ZeroDivisionError, and [x ** 2] raises OverflowError
        when a finite [x] squares to infinity;
      - a NumPy [float64] scalar (what SciPy's minimiser may hand over as the
        trial index): the same operations follow IEEE-754 and return an
        infinity or NaN (NumPy only emits a warning).
    An operation with at least one NumPy operand is a NumPy operation and
    yields a NumPy scalar.  The three integer literals of the script ([1] in
    line 41, [0] as the last surface's ["t"], [2] as the exponent of line 111)
    are read as the floats Python converts them to when they meet a float. *)

From Stdlib Require Import ZArith List String Bool Lia.
From Stdlib Require Import Floats.
From Stdlib Require Import QArith Qpower Field.
Import ListNotations.

Set Warnings "-inexact-float".

Local Open Scope string_scope.
Local Open Scope float_scope.

(** ** Exceptions *)

Inductive exception : Type :=
| ZeroDivisionError
| OverflowError
| TypeError
| KeyError.

Inductive exn (A : Type) : Type :=
| OK (a : A)
| Raise (e : exception).
Arguments OK {A} a.
Arguments Raise {A} e.

Definition bind {A B : Type} (c : exn A) (k : A -> exn B) : exn B :=
  match c with
  | OK a => k a
  | Raise e => Raise e
  end.

Notation "x <- c ;; k" := (bind c (fun x => k))
  (at level 61, c at next level, right associativity).

(** ** Numbers *)

Inductive num : Type :=
| PyFloat (x : float)      (* a Python float *)
| NpFloat64 (x : float).   (* a numpy.float64 scalar *)

Definition val (a : num) : float :=
  match a with PyFloat x | NpFloat64 x => x end.

Definition is_np (a : num) : bool :=
  match a with PyFloat _ => false | NpFloat64 _ => true end.

(** [a op b] for [+], [-], [*]: never raises. *)
Definition lift2 (op : float -> float -> float) (a b : num) : num :=
  match a, b with
  | PyFloat x, PyFloat y => PyFloat (op x y)
  | _, _ => NpFloat64 (op (val a) (val b))
  end.

Definition num_add : num -> num -> num := lift2 PrimFloat.add.
Definition num_sub : num -> num -> num := lift2 PrimFloat.sub.
Definition num_mul : num -> num -> num := lift2 PrimFloat.mul.

(** [a / b]: Python floats raise on a zero divisor (either sign). *)
Definition num_div (a b : num) : exn num :=
  match a, b with
  | PyFloat x, PyFloat y =>
      if y =? 0 then Raise ZeroDivisionError else OK (PyFloat (x / y))
  | _, _ => OK (NpFloat64 (val a / val b))
  end.

(** [-a] and [abs(a)] keep the kind. *)
Definition num_opp (a : num) : num :=
  match a with
  | PyFloat x => PyFloat (- x)
  | NpFloat64 x => NpFloat64 (- x)
  end.

Definition num_abs (a : num) : num :=
  match a with
  | PyFloat x => PyFloat (abs x)
  | NpFloat64 x => NpFloat64 (abs x)
  end.

(** [a ** 2].  Both kinds of number hand the square to the C library's
    [pow(x, 2.0)], which need not be correctly rounded: what it computes for
    a finite positive base is the parameter [pow2], and the theorems say what
    they ask of it.  On the other bases [pow] follows Annex F of the C
    standard (NaN gives NaN, an infinity gives [+inf], a zero gives [0.0])
    and, the exponent being an even integer, squares the absolute value of a
    negative base. *)
Definition c_pow2 (pow2 : float -> float) (x : float) : float :=
  if is_nan x then x
  else if is_infinity x then infinity
  else if x =? 0 then 0
  else pow2 (abs x).

(** A NumPy scalar returns what [pow] returns.  A Python float ([float_pow]
    of CPython) answers the special bases itself, with the same values;
    it replaces a negative base by its absolute value, answers 1.0 for the
    base 1.0, and hands any other base to [pow], where an infinite result
    raises OverflowError. *)
Definition num_pow2 (pow2 : float -> float) (a : num) : exn num :=
  match a with
  | PyFloat x =>
      if is_nan x then OK (PyFloat x)
      else if is_infinity x then OK (PyFloat (abs x))
      else if x =? 0 then OK (PyFloat 0)
      else if abs x =? 1 then OK (PyFloat 1)
      else if is_infinity (c_pow2 pow2 (abs x)) then Raise OverflowError
      else OK (PyFloat (c_pow2 pow2 (abs x)))
  | NpFloat64 x => OK (NpFloat64 (c_pow2 pow2 x))
  end.

(** The correctly rounded square, one function [pow2] can be. *)
Definition mul_pow2 (x : float) : float := x * x.

(** [math.isinf(a)] and [a == np.inf]. *)
Definition isinf (a : num) : bool := is_infinity (val a).
Definition eq_inf (a : num) : bool := val a =? infinity.

(** [np.inf] is a Python float. *)
Definition np_inf : num := PyFloat infinity.

(** ** Module constants (lines 10-26) *)

Definition n_air : num := PyFloat 1.000.
Definition n_plexi : num := PyFloat 1.491.
Definition n_water : num := PyFloat 1.333.

Definition R_outer : num := PyFloat 30.0.
Definition R_inner : num := PyFloat 27.0.
Definition wall_thickness : num := PyFloat 3.0.
Definition partition_thickness : num := PyFloat 2.0.
Definition cavity_thickness : num := PyFloat 26.0.

Definition f_measured : list (string * num) :=
  [ ("empty", PyFloat (-500.0));
    ("one_filled", PyFloat 132.0);
    ("both_filled", PyFloat 55.0) ].

(** ** Paraxial tracing (lines 32-54) *)

(** The arithmetic of [refract] is written once, over any carrier that offers
    the operators the expressions use; Python resolves them on the operand
    types in the same way. *)
Class Arith (V : Type) : Type := {
  a_one : V;
  a_sub : V -> V -> V;
  a_mul : V -> V -> V;
  a_div : V -> V -> exn V
}.

Section Formulae.
Context {V : Type} `{Arith V}.

(** line 38: [(n2 / n1) * s] *)
Definition flat_image (n1 n2 s : V) : exn V :=
  q <- a_div n2 n1 ;; OK (a_mul q s).

(** line 40: [n2 * R / (n2 - n1)] *)
Definition focus_image (n1 n2 R : V) : exn V :=
  a_div (a_mul n2 R) (a_sub n2 n1).

(** line 41, the divisor: [(n2 - n1) / (n2 * R) - n1 / (n2 * s)] *)
Definition denominator (n1 n2 R s : V) : exn V :=
  a <- a_div (a_sub n2 n1) (a_mul n2 R) ;;
  b <- a_div n1 (a_mul n2 s) ;;
  OK (a_sub a b).

(** line 41: [1 / (...)] *)
Definition general_image (n1 n2 R s : V) : exn V :=
  d <- denominator n1 n2 R s ;; a_div a_one d.
End Formulae.

#[export] Instance num_arith : Arith num := {
  a_one := PyFloat 1;
  a_sub := num_sub;
  a_mul := num_mul;
  a_div := num_div
}.

Definition refract (n1 n2 R s : num) : exn num :=
  if isinf R then
    if eq_inf s then OK np_inf
    else flat_image n1 n2 s
  else if eq_inf s then focus_image n1 n2 R
  else general_image n1 n2 R s.

(** A surface is the dict [{"n1": .., "n2": .., "R": .., "t": ..}]. *)
Record surface : Type := Surface {
  n1 : num;   (* incidence-side index *)
  n2 : num;   (* transmission-side index *)
  R : num;    (* radius of curvature, [np.inf] when flat *)
  t : num     (* distance to the next vertex *)
}.

(** What a Python expression of the script evaluates to: a number or [None]. *)
Inductive pyval : Type :=
| VNum (x : num)
| VNone.

(** The [for] loop of [trace_system]: [i] is the index [enumerate] hands out,
    [len] is [len(surfaces)], [s] the current object distance and [rest] the
    surfaces not yet visited.  Falling out of the loop reaches line 54. *)
Fixpoint trace_loop (len i : Z) (s : num) (rest : list surface) : exn pyval :=
  match rest with
  | [] => OK VNone
  | surf :: rest' =>
      s_prime <- refract (n1 surf) (n2 surf) (R surf) s ;;
      if (i =? len - 1)%Z then OK (VNum s_prime)
      else trace_loop len (i + 1)%Z (num_sub (t surf) s_prime) rest'
  end.

Definition trace_system (surfaces : list surface) : exn pyval :=
  trace_loop (Z.of_nat (List.length surfaces)) 0%Z np_inf surfaces.

(** ** The three optical systems (lines 60-94) *)

(** A [dict] with string keys, kept in insertion order: the order decides
    which entry raises first and how the floating-point sum of
    [error_function] associates. *)
Definition dict (A : Type) : Type := list (string * A).

Fixpoint dict_get {A : Type} (d : dict A) (key : string) : exn A :=
  match d with
  | [] => Raise KeyError
  | (k, v) :: d' => if String.eqb k key then OK v else dict_get d' key
  end.

Definition keys {A : Type} (d : dict A) : list string := map fst d.

Definition build_systems (n_water : num) : dict (list surface) :=
  [ ("empty",
     [ Surface n_air n_plexi R_outer wall_thickness;
       Surface n_plexi n_air R_inner cavity_thickness;
       Surface n_air n_plexi np_inf partition_thickness;
       Surface n_plexi n_air np_inf cavity_thickness;
       Surface n_air n_plexi (num_opp R_inner) wall_thickness;
       Surface n_plexi n_air (num_opp R_outer) (PyFloat 0) ]);
    ("one_filled",
     [ Surface n_air n_plexi R_outer wall_thickness;
       Surface n_plexi n_air R_inner cavity_thickness;
       Surface n_air n_plexi np_inf partition_thickness;
       Surface n_plexi n_water np_inf cavity_thickness;
       Surface n_water n_plexi (num_opp R_inner) wall_thickness;
       Surface n_plexi n_air (num_opp R_outer) (PyFloat 0) ]);
    ("both_filled",
     [ Surface n_air n_plexi R_outer wall_thickness;
       Surface n_plexi n_water R_inner cavity_thickness;
       Surface n_water n_plexi np_inf partition_thickness;
       Surface n_plexi n_water np_inf cavity_thickness;
       Surface n_water n_plexi (num_opp R_inner) wall_thickness;
       Surface n_plexi n_air (num_opp R_outer) (PyFloat 0) ]) ].

(** ** Evaluation (lines 100-112) *)

(** [{name: f(x) for name, x in d.items()}]: entries are evaluated in
    insertion order and the first exception ends the comprehension. *)
Fixpoint dict_map {A B : Type} (f : A -> exn B) (d : dict A) : exn (dict B) :=
  match d with
  | [] => OK []
  | (name, x) :: d' =>
      y <- f x ;;
      r <- dict_map f d' ;;
      OK ((name, y) :: r)
  end.

Definition predict_focals (n_water : num) : exn (dict pyval) :=
  dict_map trace_system (build_systems n_water).

(** [abs(v)]: [None] has no absolute value. *)
Definition py_abs (v : pyval) : exn num :=
  match v with
  | VNum x => OK (num_abs x)
  | VNone => Raise TypeError
  end.

(** Line 111, the term added to [err]:
    [((abs(f_model) - abs(f_meas)) / f_meas) ** 2]. *)
Definition error_term (pow2 : float -> float) (f_model : pyval) (f_meas : num)
  : exn num :=
  a <- py_abs f_model ;;
  q <- num_div (num_sub a (num_abs f_meas)) f_meas ;;
  num_pow2 pow2 q.

(** The loop of lines 108-111 over [f_measured.items()]. *)
Fixpoint error_loop (pow2 : float -> float) (focals : dict pyval) (err : num)
         (items : dict num) : exn num :=
  match items with
  | [] => OK err
  | (key, f_meas) :: items' =>
      f_model <- dict_get focals key ;;
      e <- error_term pow2 f_model f_meas ;;
      error_loop pow2 focals (num_add err e) items'
  end.

Definition error_function (pow2 : float -> float) (n_water : num) : exn num :=
  focals <- predict_focals n_water ;;
  error_loop pow2 focals (PyFloat 0.0) f_measured.

(** ** Exact arithmetic

    The formulae of [refract] over the rationals: what the same expressions
    denote when no operation rounds (every finite binary64 value is a rational).
    Division by a zero rational raises, as it does for Python's exact types. *)
#[export] Instance Q_arith : Arith Q := {
  a_one := 1%Q;
  a_sub := Qminus;
  a_mul := Qmult;
  a_div := fun x y =>
    if Qeq_bool y 0 then Raise ZeroDivisionError else OK (x / y)%Q
}.

(** ** Views used by the statements *)

(** The radius and thickness of each surface, and the media on its two sides. *)
Definition geometry (sys : list surface) : list (num * num) :=
  map (fun surf => (R surf, t surf)) sys.

Definition media (sys : list surface) : list (num * num) :=
  map (fun surf => (n1 surf, n2 surf)) sys.

(** Consecutive surfaces share the medium between them. *)
Fixpoint chained (sys : list surface) : Prop :=
  match sys with
  | a :: (b :: _) as rest => n2 a = n1 b /\ chained rest
  | _ => True
  end.

(** The surface with another distance to the next vertex. *)
Definition with_t (surf : surface) (t' : num) : surface :=
  Surface (n1 surf) (n2 surf) (R surf) t'.

(** The cost as the specification words it: the squared relative error of one
    configuration, [((|predicted| - |measured|) / measured)^2]. *)
Definition squared_relative_error (pow2 : float -> float)
           (predicted measured : num) : exn num :=
  q <- num_div (num_sub (num_abs predicted) (num_abs measured)) measured ;;
  num_pow2 pow2 q.

(** The focal length of the empty container: what tracing the "empty" system
    evaluates to (see [predict_focals_shape]). *)
Definition empty_focal : float := -439.1120324543771.

(** A finite binary64 value that is not a zero. *)
Definition finite_nonzero (x : float) : bool :=
  is_finite x && negb (is_zero x).

(** The rational a finite binary64 value is (0 for the infinities and NaN). *)
Definition to_Q (x : float) : Q :=
  match Prim2SF x with
  | S754_finite sign m e =>
      ((if sign then -1 else 1) * inject_Z (Zpos m) * 2 ^ e)%Q
  | _ => 0%Q
  end.

(** A binary64 operation that does not round on these operands: the result is
    finite and is the exact result [opQ] of the operands' values. *)
Definition exact (op : float -> float -> float) (opQ : Q -> Q -> Q)
           (x y : float) : Prop :=
  is_finite (op x y) = true /\ (to_Q (op x y) == opQ (to_Q x) (to_Q y))%Q.

(** None of the seven operations of line 41 rounds. *)
Definition line_41_exact (x1 x2 r s : float) : Prop :=
  exact PrimFloat.sub Qminus x2 x1
  /\ exact PrimFloat.mul Qmult x2 r
  /\ exact PrimFloat.div Qdiv (x2 - x1) (x2 * r)
  /\ exact PrimFloat.mul Qmult x2 s
  /\ exact PrimFloat.div Qdiv x1 (x2 * s)
  /\ exact PrimFloat.sub Qminus ((x2 - x1) / (x2 * r)) (x1 / (x2 * s))
  /\ exact PrimFloat.div Qdiv 1
       ((x2 - x1) / (x2 * r) - x1 / (x2 * s)).

(** The value [refract] returns when it returns, on binary64 values. *)
Definition refract_val (x1 x2 r s : float) : float :=
  if is_infinity r then
    if s =? infinity then infinity else x2 / x1 * s
  else if s =? infinity then x2 * r / (x2 - x1)
  else 1 / ((x2 - x1) / (x2 * r) - x1 / (x2 * s)).

(** A surface at which a number goes in and a number comes out. *)
Definition regular (surf : surface) : Prop :=
  let x1 := val (n1 surf) in
  let x2 := val (n2 surf) in
  let r := val (R surf) in
  finite_nonzero x1 = true
  /\ finite_nonzero x2 = true
  /\ is_finite (val (t surf)) = true
  /\ (if is_infinity r then finite_nonzero (x2 / x1) = true
      else is_finite ((x2 - x1) / (x2 * r)) = true
           /\ is_nan (x2 * r / (x2 - x1)) = false).

(** Case analysis on the comparisons a symbolic fill index leaves undecided,
    evaluating what is left after each. *)
Ltac split_tests :=
  repeat (match goal with
          | |- context [if ?c then _ else _] => destruct c eqn:?
          end; cbv).

(** * Facts about binary64 values

    The primitive operations are specified by the standard library through
    [Prim2SF]; the facts used below are read off that specification. *)

Module FloatFacts.

(** A value that is not below zero: a zero of either sign, a positive finite
    value, [+inf], or NaN (which compares below nothing). *)
Definition sf_not_negative (x : spec_float) : bool :=
  match x with
  | S754_zero _ | S754_nan => true
  | S754_infinity s | S754_finite s _ _ => negb s
  end.

(** A value that is at least zero: the same, NaN excluded. *)
Definition sf_ge_zero (x : spec_float) : bool :=
  match x with
  | S754_zero _ => true
  | S754_infinity s | S754_finite s _ _ => negb s
  | S754_nan => false
  end.

Definition sf_is_nan (x : spec_float) : bool :=
  match x with S754_nan => true | _ => false end.

Definition sf_is_finite (x : spec_float) : bool :=
  match x with S754_zero _ | S754_finite _ _ _ => true | _ => false end.

(** The sign a rounding step was asked to produce is the sign it produces. *)
Definition sf_signed (s : bool) (x : spec_float) : Prop :=
  match x with
  | S754_nan => True
  | S754_zero s' | S754_infinity s' | S754_finite s' _ _ => s' = s
  end.

(** *** Rounding keeps the sign *)

Lemma binary_round_aux_signed (s : bool) (m e : Z) (l : location) :
  sf_signed s (binary_round_aux prec emax s m e l).
Proof.
  unfold binary_round_aux.
  destruct (shr_fexp prec emax m e l) as [mrs' e'].
  destruct (shr_fexp prec emax _ e' loc_Exact) as [mrs'' e''].
  destruct (shr_m mrs''); simpl; trivial.
  destruct (_ <=? _)%Z; simpl; trivial.
Qed.

Lemma binary_round_signed (s : bool) (m : positive) (e : Z) :
  sf_signed s (binary_round prec emax s m e).
Proof.
  unfold binary_round.
  destruct (shl_align m e _) as [mz ez].
  apply binary_round_aux_signed.
Qed.

(** *** Rounding a mantissa that is not negative never yields NaN *)

Lemma shr_1_nonneg (mrs : shr_record) :
  (0 <= shr_m mrs)%Z -> (0 <= shr_m (shr_1 mrs))%Z.
Proof.
  destruct mrs as [m r s]. simpl.
  destruct m as [| [p | p |] | [p | p |]]; simpl; lia.
Qed.

Lemma iter_shr_1_nonneg (p : positive) :
  forall mrs, (0 <= shr_m mrs)%Z -> (0 <= shr_m (SpecFloat.iter_pos shr_1 p mrs))%Z.
Proof.
  induction p as [p IH | p IH |]; intros mrs H; simpl.
  - apply IH, IH, shr_1_nonneg, H.
  - apply IH, IH, H.
  - apply shr_1_nonneg, H.
Qed.

Lemma shr_fexp_nonneg (m e : Z) (l : location) :
  (0 <= m)%Z -> (0 <= shr_m (fst (shr_fexp prec emax m e l)))%Z.
Proof.
  intros H. unfold shr_fexp, shr.
  assert (H0 : (0 <= shr_m (shr_record_of_loc m l))%Z).
  { destruct l as [| []]; exact H. }
  destruct (_ - e)%Z; simpl; trivial.
  now apply iter_shr_1_nonneg.
Qed.

Lemma round_nearest_even_nonneg (m : Z) (l : location) :
  (0 <= m)%Z -> (0 <= round_nearest_even m l)%Z.
Proof.
  intros H. destruct l as [| []]; simpl; try lia.
  destruct (Z.even m); lia.
Qed.

Lemma binary_round_aux_not_nan (s : bool) (m e : Z) (l : location) :
  (0 <= m)%Z -> sf_is_nan (binary_round_aux prec emax s m e l) = false.
Proof.
  intros H. unfold binary_round_aux.
  pose proof (shr_fexp_nonneg m e l H) as H1.
  destruct (shr_fexp prec emax m e l) as [mrs' e']. simpl in H1.
  pose proof (shr_fexp_nonneg _ e' loc_Exact
                (round_nearest_even_nonneg _ (loc_of_shr_record mrs') H1))
    as H2.
  destruct (shr_fexp prec emax _ e' loc_Exact) as [mrs'' e'']. simpl in H2.
  destruct (shr_m mrs''); try lia; [reflexivity |].
  destruct (_ <=? _)%Z; reflexivity.
Qed.

Lemma binary_round_not_nan (s : bool) (m : positive) (e : Z) :
  sf_is_nan (binary_round prec emax s m e) = false.
Proof.
  unfold binary_round. destruct (shl_align m e _) as [mz ez].
  apply binary_round_aux_not_nan. lia.
Qed.

Lemma binary_normalize_not_nan (m e : Z) (sz : bool) :
  sf_is_nan (binary_normalize prec emax m e sz) = false.
Proof.
  destruct m; simpl; trivial; apply binary_round_not_nan.
Qed.

(** *** The operations of the cost, on specification floats *)

Lemma signed_false_not_negative (x : spec_float) :
  sf_signed false x -> sf_not_negative x = true.
Proof. destruct x; simpl; intros; subst; reflexivity. Qed.

Lemma signed_false_ge_zero (x : spec_float) :
  sf_signed false x -> sf_is_nan x = false -> sf_ge_zero x = true.
Proof. destruct x; simpl; intros; subst; trivial; discriminate. Qed.

Lemma SFmul_self_not_negative (x : spec_float) :
  sf_not_negative (SF64mul x x) = true.
Proof.
  destruct x as [s | s | | s m e]; simpl; trivial.
  - now destruct s.
  - apply signed_false_not_negative.
    replace false with (xorb s s) by now destruct s.
    apply binary_round_aux_signed.
Qed.

Lemma SFmul_self_ge_zero (x : spec_float) :
  sf_is_nan x = false -> sf_ge_zero (SF64mul x x) = true.
Proof.
  destruct x as [s | s | | s m e]; simpl; try discriminate; intros _.
  - reflexivity.
  - now destruct s.
  - apply signed_false_ge_zero.
    + replace false with (xorb s s) by now destruct s.
      apply binary_round_aux_signed.
    + apply binary_round_aux_not_nan. lia.
Qed.

Lemma SFadd_not_negative (x y : spec_float) :
  sf_not_negative x = true -> sf_not_negative y = true ->
  sf_not_negative (SF64add x y) = true.
Proof.
  destruct x as [sx | sx | | sx mx ex]; destruct y as [sy | sy | | sy my ey];
    simpl; intros Hx Hy; trivial;
    try (destruct sx; try discriminate);
    try (destruct sy; try discriminate); simpl; trivial.
  apply signed_false_not_negative.
  apply binary_round_signed.
Qed.

Lemma SFadd_ge_zero (x y : spec_float) :
  sf_ge_zero x = true -> sf_ge_zero y = true ->
  sf_ge_zero (SF64add x y) = true.
Proof.
  destruct x as [sx | sx | | sx mx ex]; destruct y as [sy | sy | | sy my ey];
    simpl; intros Hx Hy; trivial; try discriminate;
    try (destruct sx; try discriminate);
    try (destruct sy; try discriminate); simpl; trivial.
  apply signed_false_ge_zero.
  - apply binary_round_signed.
  - apply binary_round_not_nan.
Qed.

Lemma SFabs_not_nan (x : spec_float) : sf_is_nan (SFabs x) = sf_is_nan x.
Proof. now destruct x. Qed.

Lemma SFsub_not_nan (x y : spec_float) :
  sf_is_nan x = false -> sf_is_finite y = true ->
  sf_is_nan (SF64sub x y) = false.
Proof.
  destruct x as [sx | sx | | sx mx ex]; destruct y as [sy | sy | | sy my ey];
    simpl; intros Hx Hy; trivial; try discriminate.
  - now destruct sx, sy.
  - apply binary_normalize_not_nan.
Qed.

Lemma SFdiv_not_nan (x y : spec_float) :
  sf_is_nan x = false -> sf_is_finite y = true ->
  SFeqb y (S754_zero false) = false ->
  sf_is_nan (SF64div x y) = false.
Proof.
  destruct x as [sx | sx | | sx mx ex]; destruct y as [sy | sy | | sy my ey];
    simpl; intros Hx Hy Hz; trivial; try discriminate.
  unfold SFdiv_core_binary.
  set (m' := match (ex - ey - _)%Z with
             | Z0 => _ | Zpos _ => _ | Zneg _ => _
             end).
  assert (Hm : (0 <= m')%Z).
  { subst m'. destruct (_ - _ - _)%Z; try lia. apply Z.shiftl_nonneg. lia. }
  pose proof (Z.div_pos m' (Z.pos my) Hm ltac:(lia)) as Hq.
  unfold Z.div in Hq.
  destruct (Z.div_eucl m' (Z.pos my)) as [q r]. simpl in Hq.
  now apply binary_round_aux_not_nan.
Qed.

(** *** The same facts on binary64 values *)

Lemma Prim2SF_zero : Prim2SF 0 = S754_zero false.
Proof. reflexivity. Qed.

Lemma Prim2SF_infinity : Prim2SF infinity = S754_infinity false.
Proof. reflexivity. Qed.

Lemma Prim2SF_neg_infinity : Prim2SF neg_infinity = S754_infinity true.
Proof. reflexivity. Qed.

Lemma is_nan_spec (x : float) : is_nan x = sf_is_nan (Prim2SF x).
Proof.
  unfold is_nan. rewrite FloatAxioms.eqb_spec.
  destruct (Prim2SF x) as [s | s | | s m e]; simpl; trivial.
  - now destruct s.
  - unfold SFeqb, SFcompare.
    destruct s; rewrite Z.compare_refl, Pos.compare_cont_refl; reflexivity.
Qed.

(** [x < 0] is false exactly for the values that are not negative. *)
Lemma ltb_zero_not_negative (x : float) :
  (x <? 0) = negb (sf_not_negative (Prim2SF x)).
Proof.
  rewrite ltb_spec, Prim2SF_zero.
  destruct (Prim2SF x) as [s | s | | s m e]; simpl; trivial; now destruct s.
Qed.

Lemma leb_zero_spec (x : float) : (0 <=? x) = sf_ge_zero (Prim2SF x).
Proof.
  rewrite leb_spec, Prim2SF_zero.
  destruct (Prim2SF x) as [s | s | | s m e]; simpl; trivial; now destruct s.
Qed.

Lemma mul_self_not_negative (x : float) : (x * x <? 0) = false.
Proof.
  rewrite ltb_zero_not_negative, mul_spec, SFmul_self_not_negative.
  reflexivity.
Qed.

Lemma add_not_negative (x y : float) :
  (x <? 0) = false -> (y <? 0) = false -> (x + y <? 0) = false.
Proof.
  rewrite !ltb_zero_not_negative, add_spec.
  intros Hx Hy. rewrite SFadd_not_negative; trivial.
  - now destruct (sf_not_negative (Prim2SF x)).
  - now destruct (sf_not_negative (Prim2SF y)).
Qed.

Lemma mul_self_ge_zero (x : float) : is_nan x = false -> (0 <=? x * x) = true.
Proof.
  rewrite is_nan_spec, leb_zero_spec, mul_spec. apply SFmul_self_ge_zero.
Qed.

Lemma add_ge_zero (x y : float) :
  (0 <=? x) = true -> (0 <=? y) = true -> (0 <=? x + y) = true.
Proof.
  rewrite !leb_zero_spec, add_spec. apply SFadd_ge_zero.
Qed.

Lemma finite_nonzero_spec (x : float) :
  is_finite x = true -> is_zero x = false ->
  sf_is_finite (Prim2SF x) = true
  /\ SFeqb (Prim2SF x) (S754_zero false) = false.
Proof.
  unfold is_finite, is_infinity, is_zero, zero.
  rewrite is_nan_spec, !FloatAxioms.eqb_spec, abs_spec.
  rewrite Prim2SF_infinity, Prim2SF_zero.
  destruct (Prim2SF x) as [s | s | | s m e]; simpl; try discriminate; auto.
Qed.

(** The relative error against a finite nonzero measurement is a number
    whenever the prediction is; NaN goes through every operation. *)
Lemma relative_error_not_nan (f m : float) :
  is_nan f = false -> is_finite m = true -> is_zero m = false ->
  is_nan ((abs f - abs m) / m) = false.
Proof.
  intros Hf Hm Hz.
  destruct (finite_nonzero_spec m Hm Hz) as [Hfin Hnz].
  rewrite is_nan_spec in *. rewrite div_spec, sub_spec, !abs_spec.
  apply SFdiv_not_nan; trivial.
  apply SFsub_not_nan.
  - now rewrite SFabs_not_nan.
  - now destruct (Prim2SF m).
Qed.

Lemma nan_relative_error (f m : float) :
  is_nan f = true -> is_nan ((abs f - abs m) / m) = true.
Proof.
  rewrite !is_nan_spec, div_spec, sub_spec, !abs_spec.
  destruct (Prim2SF f); simpl; try discriminate. reflexivity.
Qed.

Lemma nan_mul_self (x : float) : is_nan x = true -> is_nan (x * x) = true.
Proof.
  rewrite !is_nan_spec, mul_spec.
  destruct (Prim2SF x); simpl; try discriminate. reflexivity.
Qed.

Lemma nan_add_l (x y : float) : is_nan x = true -> is_nan (x + y) = true.
Proof.
  rewrite !is_nan_spec, add_spec.
  destruct (Prim2SF x); simpl; try discriminate. reflexivity.
Qed.

Lemma nan_add_r (x y : float) : is_nan y = true -> is_nan (x + y) = true.
Proof.
  rewrite !is_nan_spec, add_spec.
  destruct (Prim2SF y); simpl; try discriminate. now destruct (Prim2SF x).
Qed.

(** A value that compares equal to zero is one of the two zeros. *)
Lemma is_zero_cases (x : float) :
  is_zero x = true -> x = 0 \/ x = (-0).
Proof.
  unfold is_zero, zero. rewrite FloatAxioms.eqb_spec, Prim2SF_zero.
  destruct (Prim2SF x) as [s | s | | s m e] eqn:E; simpl;
    try discriminate; try (destruct s; discriminate).
  intros _. destruct s.
  - right. apply Prim2SF_inj. rewrite E. reflexivity.
  - left. apply Prim2SF_inj. rewrite E. reflexivity.
Qed.

(** A positive value is not a zero. *)
Lemma positive_not_zero (x : float) : (0 <? x) = true -> (x =? 0) = false.
Proof.
  rewrite ltb_spec, FloatAxioms.eqb_spec, Prim2SF_zero.
  destruct (Prim2SF x) as [s | s | | s m e]; simpl;
    try discriminate; destruct s; simpl; trivial; discriminate.
Qed.

(** A finite value is neither infinity. *)
Lemma finite_not_infinity (x : float) :
  is_finite x = true -> is_infinity x = false.
Proof.
  unfold is_finite. destruct (is_nan x), (is_infinity x); simpl; congruence.
Qed.

Lemma not_infinity_neq_inf (x : float) :
  is_infinity x = false -> (x =? infinity) = false.
Proof.
  unfold is_infinity. rewrite !FloatAxioms.eqb_spec, abs_spec, Prim2SF_infinity.
  destruct (Prim2SF x) as [s | s | | s m e]; simpl; trivial;
    destruct s; simpl; trivial; discriminate.
Qed.

(** What [math.isinf] accepts is one of the two infinities. *)
Lemma is_infinity_cases (x : float) :
  is_infinity x = true -> x = infinity \/ x = neg_infinity.
Proof.
  unfold is_infinity. rewrite FloatAxioms.eqb_spec, abs_spec, Prim2SF_infinity.
  destruct (Prim2SF x) as [s | s | | s m e] eqn:E; simpl; try discriminate.
  intros _. destruct s.
  - right. apply Prim2SF_inj. rewrite E. reflexivity.
  - left. apply Prim2SF_inj. rewrite E. reflexivity.
Qed.

(** A positive factor (finite or infinite) keeps [-inf] at [-inf]. *)
Lemma positive_mul_neg_infinity (q : float) :
  (0 <? q) = true -> q * neg_infinity = neg_infinity.
Proof.
  rewrite ltb_spec, Prim2SF_zero. intros Hq.
  apply Prim2SF_inj. rewrite mul_spec, Prim2SF_neg_infinity.
  destruct (Prim2SF q) as [s | s | | s m e]; simpl in *;
    try discriminate; destruct s; simpl in *; trivial; discriminate.
Qed.

End FloatFacts.

(** * Magnitudes of binary64 values

    Where a statement needs a result to be finite, or not zero, the rounding
    step of the specification is followed through its shifts: a mantissa of
    53 digits and an exponent away from the two ends of the range give a
    finite nonzero result. *)

Module Magnitude.

Local Open Scope Z_scope.

(** The number of binary digits of a mantissa. *)
Definition dg (p : positive) : Z := Zpos (digits2_pos p).

Lemma dg_xO (p : positive) : dg (p~0) = dg p + 1.
Proof. unfold dg. simpl. lia. Qed.

Lemma dg_xI (p : positive) : dg (p~1) = dg p + 1.
Proof. unfold dg. simpl. lia. Qed.

Lemma dg_pos (p : positive) : 0 < dg p.
Proof. unfold dg. lia. Qed.

Lemma dg_bounds (p : positive) : 2 ^ (dg p - 1) <= Zpos p < 2 ^ dg p.
Proof.
  induction p as [p IH | p IH |].
  - rewrite dg_xI. replace (dg p + 1 - 1) with (Z.succ (dg p - 1)) by lia.
    replace (dg p + 1) with (Z.succ (dg p)) by lia.
    pose proof (dg_pos p).
    rewrite !Z.pow_succ_r by lia. lia.
  - rewrite dg_xO. replace (dg p + 1 - 1) with (Z.succ (dg p - 1)) by lia.
    replace (dg p + 1) with (Z.succ (dg p)) by lia.
    pose proof (dg_pos p).
    rewrite !Z.pow_succ_r by lia. lia.
  - unfold dg. simpl. lia.
Qed.

Lemma dg_le (p : positive) (k : Z) : Zpos p < 2 ^ k -> dg p <= k.
Proof.
  intros H. destruct (Z.le_gt_cases (dg p) k) as [Hk | Hk]; [exact Hk |].
  exfalso. pose proof (dg_bounds p) as [Hlo _].
  assert (2 ^ k <= 2 ^ (dg p - 1)).
  { destruct (Z.le_gt_cases 0 k).
    - apply Z.pow_le_mono_r; lia.
    - rewrite (Z.pow_neg_r 2 k) by lia.
      apply Z.pow_nonneg. lia. }
  lia.
Qed.

Lemma dg_ge (p : positive) (k : Z) : 2 ^ (k - 1) <= Zpos p -> k <= dg p.
Proof.
  intros H. destruct (Z.le_gt_cases k (dg p)) as [Hk | Hk]; [exact Hk |].
  exfalso. pose proof (dg_bounds p) as [_ Hhi]. pose proof (dg_pos p).
  assert (2 ^ dg p <= 2 ^ (k - 1)) by (apply Z.pow_le_mono_r; lia).
  lia.
Qed.

Lemma dg_iter_xO (p d : positive) : dg (Pos.iter xO p d) = dg p + Zpos d.
Proof.
  induction d as [| d IH] using Pos.peano_ind.
  - cbn [Pos.iter]. rewrite dg_xO. lia.
  - rewrite Pos.iter_succ, dg_xO, IH. lia.
Qed.

(** ** Shifting right *)

Lemma shr_m_of_loc (m : Z) (l : location) : shr_m (shr_record_of_loc m l) = m.
Proof. destruct l as [| []]; reflexivity. Qed.

Lemma shr_1_digits (mrs : shr_record) :
  0 <= shr_m mrs ->
  0 <= shr_m (shr_1 mrs)
  /\ Zdigits2 (shr_m (shr_1 mrs)) = Z.max 0 (Zdigits2 (shr_m mrs) - 1).
Proof.
  destruct mrs as [m r s]. cbn [shr_m]. intros H.
  destruct m as [| p | p]; [cbn; lia | | lia].
  destruct p; cbn [shr_1 shr_m Zdigits2 digits2_pos];
    rewrite ?Pos2Z.inj_succ; lia.
Qed.

Lemma iter_shr_1_digits (n : positive) :
  forall mrs,
    0 <= shr_m mrs ->
    0 <= shr_m (SpecFloat.iter_pos shr_1 n mrs)
    /\ Zdigits2 (shr_m (SpecFloat.iter_pos shr_1 n mrs))
       = Z.max 0 (Zdigits2 (shr_m mrs) - Zpos n).
Proof.
  induction n as [n IH | n IH |]; intros mrs H; simpl.
  - destruct (shr_1_digits mrs H) as [H1 E1].
    destruct (IH _ H1) as [H2 E2].
    destruct (IH _ H2) as [H3 E3].
    split; [exact H3 |]. rewrite E3, E2, E1. lia.
  - destruct (IH _ H) as [H2 E2].
    destruct (IH _ H2) as [H3 E3].
    split; [exact H3 |]. rewrite E3, E2. lia.
  - apply shr_1_digits, H.
Qed.

Lemma Zdigits2_nonneg (m : Z) : 0 <= Zdigits2 m.
Proof. destruct m; simpl; lia. Qed.

Lemma shr_digits (mrs : shr_record) (e n : Z) :
  0 <= shr_m mrs -> 0 <= n ->
  snd (shr mrs e n) = e + n
  /\ 0 <= shr_m (fst (shr mrs e n))
  /\ Zdigits2 (shr_m (fst (shr mrs e n))) = Z.max 0 (Zdigits2 (shr_m mrs) - n).
Proof.
  intros H Hn. destruct n as [| n | n]; cbn [shr fst snd]; [| | lia].
  - repeat split; try lia.
    pose proof (Zdigits2_nonneg (shr_m mrs)). lia.
  - destruct (iter_shr_1_digits n mrs H) as [H1 E1]. repeat split; trivial.
Qed.

Lemma Zdigits2_pos_inv (m : Z) :
  0 <= m -> 0 < Zdigits2 m -> exists p, m = Zpos p /\ dg p = Zdigits2 m.
Proof.
  destruct m as [| p | p]; simpl; try lia. intros _ _. now exists p.
Qed.

(** Rounding a 53-digit mantissa to nearest gives 53 or 54 digits. *)
Lemma round_nearest_even_digits (p : positive) (l : location) :
  dg p = 53 ->
  exists q, round_nearest_even (Zpos p) l = Zpos q /\ 53 <= dg q <= 54.
Proof.
  intros H. pose proof (dg_bounds p) as [Hlo Hhi]. rewrite H in Hlo, Hhi.
  assert (Hsucc : exists q, Zpos p + 1 = Zpos q /\ 53 <= dg q <= 54).
  { exists (p + 1)%positive. split; [lia |]. split.
    - apply dg_ge. lia.
    - apply dg_le. change (2 ^ 54) with (2 * 2 ^ 53). lia. }
  assert (Hsame : exists q, Zpos p = Zpos q /\ 53 <= dg q <= 54).
  { exists p. split; [reflexivity | lia]. }
  destruct l as [| []]; unfold round_nearest_even;
    try destruct (Z.even (Zpos p)); assumption.
Qed.

(** ** Rounding in the normal range *)

(** The shift that brings a mantissa of at least 53 digits, in the range of
    the normal numbers, down to 53 digits. *)
Lemma shr_fexp_normal (p : positive) (e : Z) (l : location) :
  53 <= dg p -> -1074 <= e + dg p - 53 ->
  exists mrs' e' p1,
    shr_fexp prec emax (Zpos p) e l = (mrs', e')
    /\ e' = e + dg p - 53
    /\ shr_m mrs' = Zpos p1 /\ dg p1 = 53.
Proof.
  intros HD Hlo. unfold shr_fexp.
  assert (Hn : fexp prec emax (Zdigits2 (Zpos p) + e) - e = dg p - 53).
  { unfold fexp, emin, prec, emax. cbn [Zdigits2]. fold (dg p). lia. }
  rewrite Hn.
  destruct (shr_digits (shr_record_of_loc (Zpos p) l) e (dg p - 53))
    as (He1 & Hm1 & Hd1).
  { rewrite shr_m_of_loc. lia. }
  { lia. }
  rewrite shr_m_of_loc in Hd1. cbn [Zdigits2] in Hd1. fold (dg p) in Hd1.
  destruct (shr _ e (dg p - 53)) as [mrs' e']. cbn [fst snd] in He1, Hm1, Hd1.
  replace (Z.max 0 (dg p - (dg p - 53))) with 53 in Hd1 by lia.
  destruct (Zdigits2_pos_inv _ Hm1 ltac:(lia)) as (p1 & Ep1 & Dp1).
  exists mrs', e', p1. repeat split; trivial; lia.
Qed.

(** A mantissa of at least 53 digits whose value lies in the range of the
    normal numbers rounds to a finite nonzero value with a 53-digit
    mantissa. *)
Lemma binary_round_aux_normal (s : bool) (p : positive) (e : Z) (l : location) :
  53 <= dg p -> -1074 <= e + dg p - 53 -> e + dg p <= 1023 ->
  exists m' e',
    binary_round_aux prec emax s (Zpos p) e l = S754_finite s m' e'
    /\ dg m' = 53
    /\ e + dg p - 53 <= e' <= e + dg p - 52.
Proof.
  intros HD Hlo Hhi. unfold binary_round_aux.
  destruct (shr_fexp_normal p e l HD Hlo) as (mrs' & e' & p1 & -> & He' & Ep1 & Dp1).
  rewrite Ep1.
  destruct (round_nearest_even_digits p1 (loc_of_shr_record mrs') Dp1)
    as (q & -> & Dq).
  destruct (shr_fexp_normal q e' loc_Exact) as (mrs'' & e'' & p2 & -> & He'' & Ep2 & Dp2);
    [lia | lia |].
  rewrite Ep2.
  assert (Hle : (e'' <=? emax - prec) = true).
  { apply Z.leb_le. unfold emax, prec. lia. }
  rewrite Hle. exists p2, e''. repeat split; trivial; lia.
Qed.

(** ** Rounding does not overflow below the top of the range *)

Lemma Zdigits2_succ (m : Z) : 0 <= m -> Zdigits2 (m + 1) <= Zdigits2 m + 1.
Proof.
  destruct m as [| p | p]; try lia; intros _.
  - simpl. lia.
  - change (Zpos p + 1) with (Zpos (p + 1)). cbn [Zdigits2].
    fold (dg p) (dg (p + 1)). apply dg_le.
    pose proof (dg_bounds p) as [_ H]. pose proof (dg_pos p).
    replace (dg p + 1) with (Z.succ (dg p)) by lia.
    rewrite Z.pow_succ_r by lia. lia.
Qed.

Lemma round_nearest_even_bound (m : Z) (l : location) :
  0 <= m ->
  0 <= round_nearest_even m l
  /\ Zdigits2 (round_nearest_even m l) <= Zdigits2 m + 1.
Proof.
  intros H. pose proof (Zdigits2_succ m H).
  destruct l as [| []]; unfold round_nearest_even;
    try destruct (Z.even m); split; lia.
Qed.

Lemma shr_fexp_bound (m e : Z) (l : location) :
  0 <= m ->
  0 <= shr_m (fst (shr_fexp prec emax m e l))
  /\ Zdigits2 (shr_m (fst (shr_fexp prec emax m e l))) <= 53
  /\ -1074 <= snd (shr_fexp prec emax m e l)
  /\ snd (shr_fexp prec emax m e l)
     <= Z.max e (Z.max (Zdigits2 m + e - 53) (-1074)).
Proof.
  intros H. unfold shr_fexp.
  pose proof (Zdigits2_nonneg m) as HD.
  assert (Hf : fexp prec emax (Zdigits2 m + e)
               = Z.max (Zdigits2 m + e - 53) (-1074)) by reflexivity.
  rewrite Hf.
  destruct (Z.le_gt_cases (Z.max (Zdigits2 m + e - 53) (-1074) - e) 0)
    as [Hn | Hn].
  - assert (E : shr (shr_record_of_loc m l) e
                    (Z.max (Zdigits2 m + e - 53) (-1074) - e)
                = (shr_record_of_loc m l, e)).
    { destruct (Z.max _ _ - e); try reflexivity. lia. }
    rewrite E. cbn [fst snd]. rewrite shr_m_of_loc. lia.
  - destruct (shr_digits (shr_record_of_loc m l) e
                (Z.max (Zdigits2 m + e - 53) (-1074) - e))
      as (He & Hm & Hd); [rewrite shr_m_of_loc; lia | lia |].
    rewrite shr_m_of_loc in Hd. rewrite He, Hd. lia.
Qed.

Lemma binary_round_aux_no_overflow (s : bool) (m e : Z) (l : location) :
  0 <= m -> e <= 970 -> Zdigits2 m + e <= 1023 ->
  FloatFacts.sf_is_finite (binary_round_aux prec emax s m e l) = true.
Proof.
  intros H He HD. unfold binary_round_aux.
  destruct (shr_fexp_bound m e l H) as (H1 & D1 & L1 & U1).
  destruct (shr_fexp prec emax m e l) as [mrs' e']. cbn [fst snd] in *.
  destruct (round_nearest_even_bound (shr_m mrs') (loc_of_shr_record mrs') H1)
    as (H2 & D2).
  destruct (shr_fexp_bound _ e' loc_Exact H2) as (H3 & D3 & L3 & U3).
  destruct (shr_fexp prec emax _ e' loc_Exact) as [mrs'' e''].
  cbn [fst snd] in *.
  destruct (shr_m mrs''); try lia; [reflexivity |].
  assert (Hle : (e'' <=? emax - prec) = true).
  { apply Z.leb_le. unfold emax, prec. lia. }
  now rewrite Hle.
Qed.

Lemma dg_mul_le (p q : positive) : dg (p * q) <= dg p + dg q.
Proof.
  apply dg_le. pose proof (dg_bounds p) as [_ Hp].
  pose proof (dg_bounds q) as [_ Hq].
  pose proof (dg_pos p). pose proof (dg_pos q).
  rewrite Z.pow_add_r by lia. rewrite Pos2Z.inj_mul. nia.
Qed.

(** ** Normal values

    A finite nonzero value with a 53-digit mantissa and its exponent between
    [lo] and [hi]; and the same or a zero. *)
Definition normal (lo hi : Z) (x : spec_float) : Prop :=
  match x with
  | S754_finite _ m e => dg m = 53 /\ lo <= e <= hi
  | _ => False
  end.

Definition zero_or_normal (lo hi : Z) (x : spec_float) : Prop :=
  match x with
  | S754_zero _ => True
  | S754_finite _ m e => dg m = 53 /\ lo <= e <= hi
  | _ => False
  end.

Lemma normal_zero_or_normal (lo hi : Z) (x : spec_float) :
  normal lo hi x -> zero_or_normal lo hi x.
Proof. now destruct x. Qed.

Lemma normal_weaken (lo hi lo' hi' : Z) (x : spec_float) :
  lo' <= lo -> hi <= hi' -> normal lo hi x -> normal lo' hi' x.
Proof. destruct x; simpl; trivial. lia. Qed.

Lemma pow2_52 : 2 ^ 52 = 4503599627370496.
Proof. reflexivity. Qed.

Lemma pow2_53 : 2 ^ 53 = 9007199254740992.
Proof. reflexivity. Qed.

Lemma dg_53_bounds (p : positive) :
  dg p = 53 -> 4503599627370496 <= Zpos p < 9007199254740992.
Proof.
  intros H. pose proof (dg_bounds p) as B. rewrite H in B.
  change (53 - 1) with 52 in B. rewrite pow2_52, pow2_53 in B. exact B.
Qed.

(** The product of two normal values, away from overflow and underflow. *)
Lemma SFmul_normal (lo1 hi1 lo2 hi2 : Z) (x y : spec_float) :
  normal lo1 hi1 x -> normal lo2 hi2 y ->
  -1074 <= lo1 + lo2 + 52 -> hi1 + hi2 + 106 <= 1023 ->
  normal (lo1 + lo2 + 52) (hi1 + hi2 + 54) (SF64mul x y).
Proof.
  destruct x as [| | | sx mx ex]; try contradiction.
  destruct y as [| | | sy my ey]; try contradiction.
  intros [Dx Ex] [Dy Ey] Hlo Hhi. unfold SF64mul, SFmul.
  pose proof (dg_53_bounds mx Dx) as Bx.
  pose proof (dg_53_bounds my Dy) as By.
  assert (D : 105 <= dg (mx * my) <= 106).
  { split.
    - apply dg_ge. rewrite Pos2Z.inj_mul.
      change (2 ^ (105 - 1)) with (4503599627370496 * 4503599627370496). nia.
    - apply dg_le. rewrite Pos2Z.inj_mul.
      change (2 ^ 106) with (9007199254740992 * 9007199254740992). nia. }
  destruct (binary_round_aux_normal (xorb sx sy) (mx * my) (ex + ey) loc_Exact)
    as (m' & e' & -> & Dm & He); try lia.
  simpl. lia.
Qed.

(** The quotient of two normal values, away from overflow and underflow. *)
Lemma SFdiv_normal (lo1 hi1 lo2 hi2 : Z) (x y : spec_float) :
  normal lo1 hi1 x -> normal lo2 hi2 y ->
  -1074 <= lo1 - hi2 - 53 -> hi1 - lo2 + 1 <= 1023 ->
  normal (lo1 - hi2 - 53) (hi1 - lo2 - 51) (SF64div x y).
Proof.
  destruct x as [| | | sx mx ex]; try contradiction.
  destruct y as [| | | sy my ey]; try contradiction.
  intros [Dx Ex] [Dy Ey] Hlo Hhi. unfold SF64div, SFdiv, SFdiv_core_binary.
  pose proof (dg_53_bounds mx Dx) as Bx.
  pose proof (dg_53_bounds my Dy) as By.
  cbn [Zdigits2]. fold (dg mx) (dg my). rewrite Dx, Dy.
  assert (He' : Z.min (fexp prec emax (53 + ex - (53 + ey))) (ex - ey)
                = ex - ey - 53).
  { unfold fexp, emin, prec, emax. lia. }
  rewrite He'.
  replace (ex - ey - (ex - ey - 53)) with 53 by lia.
  rewrite Z.shiftl_mul_pow2 by lia. rewrite pow2_53.
  pose proof (Z.div_le_lower_bound (Zpos mx * 9007199254740992) (Zpos my)
                4503599627370496 ltac:(lia) ltac:(nia)) as Hq1.
  pose proof (Z.div_lt_upper_bound (Zpos mx * 9007199254740992) (Zpos my)
                18014398509481984 ltac:(lia) ltac:(nia)) as Hq2.
  unfold Z.div in Hq1, Hq2.
  destruct (Z.div_eucl _ (Zpos my)) as [q r]. cbn [fst] in Hq1, Hq2.
  destruct q as [| q | q]; try lia.
  assert (D : 53 <= dg q <= 54).
  { split.
    - apply dg_ge. change (2 ^ (53 - 1)) with 4503599627370496. lia.
    - apply dg_le. change (2 ^ 54) with 18014398509481984. lia. }
  destruct (binary_round_aux_normal (xorb sx sy) q (ex - ey - 53)
              (new_location (Zpos my) r))
    as (m' & e' & -> & Dm & He); try lia.
  simpl. lia.
Qed.

(** Rounding a short mantissa: it is shifted up to 53 digits, exactly. *)
Lemma binary_round_short (s : bool) (p : positive) (e : Z) :
  dg p <= 53 -> -1074 <= e + dg p - 53 -> e + dg p <= 1023 ->
  normal (e + dg p - 53) (e + dg p - 52) (binary_round prec emax s p e).
Proof.
  intros HD Hlo Hhi. unfold binary_round.
  assert (Hf : fexp prec emax (Zpos (digits2_pos p) + e) = e + dg p - 53).
  { fold (dg p). unfold fexp, emin, prec, emax. lia. }
  rewrite Hf. unfold shl_align.
  destruct (e + dg p - 53 - e) as [| d | d] eqn:Ed.
  - destruct (binary_round_aux_normal s p e loc_Exact)
      as (m' & e' & -> & Dm & He); try lia.
    simpl. lia.
  - pose proof (dg_pos p). lia.
  - pose proof (dg_iter_xO p d) as Di.
    destruct (binary_round_aux_normal s (Pos.iter xO p d) (e + dg p - 53)
                loc_Exact)
      as (m' & e' & -> & Dm & He); try lia.
    simpl. lia.
Qed.

(** The difference of two positive normal values of the same exponent is
    exact: a zero or a normal value. *)
Lemma SFsub_same_exponent (mx my : positive) (e : Z) :
  dg mx = 53 -> dg my = 53 -> -1022 <= e <= 970 ->
  zero_or_normal (e - 52) e
    (SF64sub (S754_finite false mx e) (S754_finite false my e)).
Proof.
  intros Dx Dy He. unfold SF64sub, SFsub.
  rewrite Z.min_id. unfold shl_align. rewrite Z.sub_diag.
  cbn [fst cond_Zopp].
  pose proof (dg_53_bounds mx Dx) as Bx.
  pose proof (dg_53_bounds my Dy) as By.
  destruct (Zpos mx - Zpos my) as [| p | p] eqn:Ep; cbn [binary_normalize].
  - exact I.
  - assert (D : dg p <= 52).
    { apply dg_le. rewrite pow2_52. lia. }
    pose proof (dg_pos p).
    pose proof (binary_round_short false p e ltac:(lia) ltac:(lia) ltac:(lia))
      as N.
    destruct (binary_round prec emax false p e); try contradiction.
    simpl in *. lia.
  - assert (D : dg p <= 52).
    { apply dg_le. rewrite pow2_52. lia. }
    pose proof (dg_pos p).
    pose proof (binary_round_short true p e ltac:(lia) ltac:(lia) ltac:(lia))
      as N.
    destruct (binary_round prec emax true p e); try contradiction.
    simpl in *. lia.
Qed.


(** ** Classes of values through the operations *)

(** A finite value that is not a zero. *)
Definition sf_finite_nonzero (x : spec_float) : bool :=
  match x with S754_finite _ _ _ => true | _ => false end.

Lemma normal_finite_nonzero (lo hi : Z) (x : spec_float) :
  normal lo hi x -> sf_finite_nonzero x = true.
Proof. now destruct x. Qed.

Lemma zero_or_normal_finite (lo hi : Z) (x : spec_float) :
  zero_or_normal lo hi x -> FloatFacts.sf_is_finite x = true.
Proof. now destruct x. Qed.

Lemma SFmul_number (x y : spec_float) :
  sf_finite_nonzero x = true -> FloatFacts.sf_is_nan y = false ->
  FloatFacts.sf_is_nan (SF64mul x y) = false.
Proof.
  destruct x as [| | | sx mx ex]; try discriminate.
  destruct y as [sy | sy | | sy my ey]; try discriminate; trivial.
  intros _ _. apply FloatFacts.binary_round_aux_not_nan. lia.
Qed.

Lemma SFdiv_number (x y : spec_float) :
  sf_finite_nonzero x = true -> FloatFacts.sf_is_nan y = false ->
  FloatFacts.sf_is_nan (SF64div x y) = false.
Proof.
  destruct x as [| | | sx mx ex]; try discriminate.
  destruct y as [sy | sy | | sy my ey]; try discriminate; trivial.
  intros _ _.
  apply (FloatFacts.SFdiv_not_nan (S754_finite sx mx ex)
           (S754_finite sy my ey)); trivial.
  now destruct sy.
Qed.

Lemma SFsub_number (x y : spec_float) :
  FloatFacts.sf_is_finite x = true -> FloatFacts.sf_is_nan y = false ->
  FloatFacts.sf_is_nan (SF64sub x y) = false.
Proof.
  destruct x as [sx | sx | | sx mx ex]; try discriminate;
    destruct y as [sy | sy | | sy my ey]; try discriminate; trivial;
    intros _ _.
  - now destruct sx, sy.
  - apply FloatFacts.binary_normalize_not_nan.
Qed.

(** The quotient of a zero or a normal value by a normal value. *)
Lemma SFdiv_zero_or_normal (lo1 hi1 lo2 hi2 : Z) (x y : spec_float) :
  zero_or_normal lo1 hi1 x -> normal lo2 hi2 y ->
  -1074 <= lo1 - hi2 - 53 -> hi1 - lo2 + 1 <= 1023 ->
  FloatFacts.sf_is_finite (SF64div x y) = true.
Proof.
  intros Hx Hy Hlo Hhi. destruct x as [sx | | | sx mx ex]; try contradiction.
  - destruct y; try contradiction. reflexivity.
  - apply (zero_or_normal_finite (lo1 - hi2 - 53) (hi1 - lo2 - 51)).
    apply normal_zero_or_normal.
    now apply (SFdiv_normal lo1 hi1 lo2 hi2).
Qed.

(** ** The same on binary64 values *)

Local Open Scope float_scope.

(** A value of the binade of 1.0: [1 <= x < 2]. *)
Definition unit_range (x : float) : Prop :=
  exists m, Prim2SF x = S754_finite false m (-52) /\ dg m = 53%Z.

Lemma is_finite_spec (x : float) :
  is_finite x = FloatFacts.sf_is_finite (Prim2SF x).
Proof.
  unfold is_finite, is_infinity.
  rewrite FloatFacts.is_nan_spec, FloatAxioms.eqb_spec, abs_spec,
    FloatFacts.Prim2SF_infinity.
  destruct (Prim2SF x) as [s | s | | s m e]; simpl; trivial.
Qed.

Lemma finite_nonzero_class (x : float) :
  finite_nonzero x = sf_finite_nonzero (Prim2SF x).
Proof.
  unfold finite_nonzero, is_zero, zero.
  rewrite is_finite_spec, FloatAxioms.eqb_spec, FloatFacts.Prim2SF_zero.
  destruct (Prim2SF x) as [s | s | | s m e]; simpl; trivial. now destruct s.
Qed.

Lemma finite_nonzero_number (x : float) :
  finite_nonzero x = true -> is_nan x = false.
Proof.
  rewrite finite_nonzero_class, FloatFacts.is_nan_spec.
  now destruct (Prim2SF x).
Qed.

Lemma finite_number (x : float) : is_finite x = true -> is_nan x = false.
Proof.
  rewrite is_finite_spec, FloatFacts.is_nan_spec. now destruct (Prim2SF x).
Qed.

Lemma mul_number (x y : float) :
  finite_nonzero x = true -> is_nan y = false -> is_nan (x * y) = false.
Proof.
  rewrite finite_nonzero_class, !FloatFacts.is_nan_spec, mul_spec.
  apply SFmul_number.
Qed.

Lemma div_number (x y : float) :
  finite_nonzero x = true -> is_nan y = false -> is_nan (x / y) = false.
Proof.
  rewrite finite_nonzero_class, !FloatFacts.is_nan_spec, div_spec.
  apply SFdiv_number.
Qed.

Lemma sub_number (x y : float) :
  is_finite x = true -> is_nan y = false -> is_nan (x - y) = false.
Proof.
  rewrite is_finite_spec, !FloatFacts.is_nan_spec, sub_spec.
  apply SFsub_number.
Qed.

(** The fit interval lies in the binade of 1.0. *)
Lemma fit_interval_unit_range (x : float) :
  (1 <=? x) = true -> (x <=? 1.6) = true -> unit_range x.
Proof.
  unfold unit_range. rewrite !leb_spec.
  replace (Prim2SF 1) with (S754_finite false 4503599627370496 (-52))
    by reflexivity.
  replace (Prim2SF 1.6) with (S754_finite false 7205759403792794 (-52))
    by reflexivity.
  pose proof (Prim2SF_valid x) as V.
  destruct (Prim2SF x) as [s | s | | s m e]; try (destruct s; discriminate);
    try discriminate.
  unfold SFleb, SFcompare. destruct s; [discriminate |].
  destruct (Z.compare_spec (-52) e) as [E | E | E]; try discriminate.
  - subst e. intros _ _. exists m. split; [reflexivity |].
    unfold valid_binary, bounded, canonical_mantissa in V.
    apply andb_prop in V. destruct V as [V _]. apply Z.eqb_eq in V.
    unfold fexp, emin, prec, emax in V. unfold dg. lia.
  - intros _. destruct (Z.compare_spec e (-52)); try discriminate; lia.
Qed.

Lemma unit_range_normal (x : float) :
  unit_range x -> normal (-52) (-52) (Prim2SF x).
Proof. intros (m & -> & D). simpl. lia. Qed.

Lemma unit_range_finite_nonzero (x : float) :
  unit_range x -> finite_nonzero x = true.
Proof.
  intros H. rewrite finite_nonzero_class.
  apply (normal_finite_nonzero (-52) (-52)), unit_range_normal, H.
Qed.

(** The quotient of two values of the binade of 1.0 is finite and not zero. *)
Lemma unit_range_div (x y : float) :
  unit_range x -> unit_range y -> finite_nonzero (x / y) = true.
Proof.
  intros Hx Hy. rewrite finite_nonzero_class, div_spec.
  apply (normal_finite_nonzero (-52 - -52 - 53) (-52 - -52 - 51)).
  apply SFdiv_normal; try lia; now apply unit_range_normal.
Qed.

(** The product of a value of the binade of 1.0 and a normal value. *)
Lemma unit_range_mul (lo hi : Z) (x y : float) :
  unit_range x -> normal lo hi (Prim2SF y) ->
  (-1074 <= lo)%Z -> (hi + 54 <= 1023)%Z ->
  normal lo (hi + 2) (Prim2SF (x * y)).
Proof.
  intros Hx Hy Hlo Hhi. rewrite mul_spec.
  apply (normal_weaken (-52 + lo + 52) (-52 + hi + 54)); try lia.
  apply SFmul_normal; try lia; trivial. now apply unit_range_normal.
Qed.

(** The difference of two values of the binade of 1.0, divided by a normal
    value, is finite. *)
Lemma unit_range_sub_div (lo hi : Z) (x y z : float) :
  unit_range x -> unit_range y -> normal lo hi (Prim2SF z) ->
  (-900 <= lo)%Z -> (hi <= 900)%Z ->
  is_finite ((x - y) / z) = true.
Proof.
  intros (mx & Ex & Dx) (my & Ey & Dy) Hz Hlo Hhi.
  rewrite is_finite_spec, div_spec, sub_spec, Ex, Ey.
  apply (SFdiv_zero_or_normal (-52 - 52) (-52) lo hi); trivial; try lia.
  apply SFsub_same_exponent; trivial; lia.
Qed.

Lemma unit_range_sub_number (x y : float) :
  unit_range x -> unit_range y -> is_nan (x - y) = false.
Proof.
  intros Hx Hy. apply sub_number.
  - apply unit_range_finite_nonzero in Hx.
    unfold finite_nonzero in Hx. now apply andb_prop in Hx.
  - now apply finite_nonzero_number, unit_range_finite_nonzero.
Qed.

(** The correctly rounded square of a value of magnitude at most 1 is
    finite. *)
Lemma mul_self_small (x : float) :
  (abs x <=? 1) = true -> is_finite (x * x) = true.
Proof.
  rewrite leb_spec, abs_spec, is_finite_spec, mul_spec.
  replace (Prim2SF 1) with (S754_finite false 4503599627370496 (-52))
    by reflexivity.
  pose proof (Prim2SF_valid x) as V.
  destruct (Prim2SF x) as [s | s | | s m e]; try discriminate; trivial.
  cbn [SFabs]. unfold SFleb, SFcompare. intros Hle.
  assert (He : (e <= -52)%Z).
  { destruct (Z.compare_spec e (-52)); try discriminate; lia. }
  unfold valid_binary, bounded, canonical_mantissa in V.
  apply andb_prop in V. destruct V as [V _]. apply Z.eqb_eq in V.
  unfold fexp, emin, prec, emax in V. fold (dg m) in V.
  unfold SF64mul, SFmul.
  pose proof (dg_mul_le m m).
  apply binary_round_aux_no_overflow; cbn [Zdigits2]; fold (dg (m * m)); lia.
Qed.

End Magnitude.

Local Open Scope float_scope.

(** * Values and kinds *)

Lemma val_num_sub (a b : num) : val (num_sub a b) = val a - val b.
Proof. now destruct a, b. Qed.

Lemma val_num_mul (a b : num) : val (num_mul a b) = val a * val b.
Proof. now destruct a, b. Qed.

Lemma num_div_val (a b q : num) : num_div a b = OK q -> val q = val a / val b.
Proof.
  destruct a as [x | x], b as [y | y]; simpl;
    try (destruct (y =? 0); [discriminate |]); now intros [= <-].
Qed.

(** * Refraction at one surface *)

Section Refract.

Variables n1 n2 R s : num.

(** A curved surface and an object that is not at [np.inf] reach line 41. *)
Lemma refract_general_branch :
  isinf R = false -> eq_inf s = false ->
  refract n1 n2 R s = general_image n1 n2 R s.
Proof. unfold refract. now intros -> ->. Qed.

(** The divisor of line 41 is a NumPy scalar as soon as one operand is. *)
Lemma denominator_kind (d : num) :
  denominator n1 n2 R s = OK d ->
  is_np d = is_np n1 || is_np n2 || is_np R || is_np s.
Proof.
  unfold denominator; simpl.
  destruct n1 as [x1 | x1], n2 as [x2 | x2], R as [r | r], s as [y | y];
    simpl;
    repeat match goal with
           | |- context [if ?c then _ else _] => destruct c; simpl
           end;
    intros E; inversion E; reflexivity.
Qed.

(** Division is the only operation of [refract] that can raise. *)
Lemma num_div_raises (a b : num) (e : exception) :
  num_div a b = Raise e -> e = ZeroDivisionError.
Proof.
  destruct a as [x | x], b as [y | y]; simpl; try discriminate.
  destruct (y =? 0); [now intros [= <-] | discriminate].
Qed.

Lemma refract_raises (e : exception) :
  refract n1 n2 R s = Raise e -> e = ZeroDivisionError.
Proof.
  unfold refract, flat_image, focus_image, general_image, denominator.
  cbn [a_div a_sub a_mul a_one num_arith].
  repeat match goal with
         | |- context [if ?c then _ else _] => destruct c
         | |- context [bind (num_div ?a ?b) _] =>
             destruct (num_div a b) eqn:?; cbn [bind]
         | H : num_div _ _ = Raise _ |- _ => apply num_div_raises in H; subst
         end;
    try discriminate;
    try (intros [= <-]; reflexivity);
    apply num_div_raises.
Qed.

(** C1, as the code has it: when the divisor of line 41 evaluates to a
    zero, the final division [1 / d] is a NumPy division if one of the four
    operands is a NumPy scalar, and then [refract] returns [1 / d], the
    infinity with the sign of that zero; with four Python floats it is a
    Python division and [refract] raises ZeroDivisionError. *)
Theorem refract_zero_denominator (d : num) :
  is_finite (val R) = true -> is_finite (val s) = true ->
  denominator n1 n2 R s = OK d -> is_zero (val d) = true ->
  if is_np n1 || is_np n2 || is_np R || is_np s
  then refract n1 n2 R s = OK (NpFloat64 (1 / val d))
       /\ (1 / val d = infinity \/ 1 / val d = neg_infinity)
  else refract n1 n2 R s = Raise ZeroDivisionError.
Proof.
  intros HR Hs Hd Hz.
  rewrite refract_general_branch.
  2: { apply FloatFacts.finite_not_infinity, HR. }
  2: { apply FloatFacts.not_infinity_neq_inf,
             FloatFacts.finite_not_infinity, Hs. }
  rewrite <- (denominator_kind d Hd).
  unfold general_image. rewrite Hd. simpl.
  destruct d as [y | y]; simpl in *.
  - unfold is_zero, zero in Hz. now rewrite Hz.
  - split; [reflexivity |].
    destruct (FloatFacts.is_zero_cases y Hz) as [-> | ->];
      [left | right]; reflexivity.
Qed.

(** C7: at a flat surface ([R] infinite, of either sign) between positive
    indices, every finite [s] gives exactly [(n2 / n1) * s], and the object at
    infinity, [s = np.inf], gives [np.inf].  (A [-inf] is not the object at
    infinity to the test [s == np.inf]: it takes the product as well, which
    is [-inf] as long as the rounded quotient [n2 / n1] is positive.) *)
Theorem refract_flat :
  isinf R = true -> (0 <? val n1) = true -> (0 <? val n2) = true ->
  (is_finite (val s) = true ->
   refract n1 n2 R s = OK (num_mul (lift2 PrimFloat.div n2 n1) s))
  /\ (val s = infinity -> refract n1 n2 R s = OK np_inf)
  /\ (val s = neg_infinity ->
      refract n1 n2 R s = OK (num_mul (lift2 PrimFloat.div n2 n1) s)
      /\ ((0 <? val n2 / val n1) = true ->
          val (num_mul (lift2 PrimFloat.div n2 n1) s) = neg_infinity)).
Proof.
  intros HR H1 H2. unfold refract. rewrite HR.
  assert (Hdiv : num_div n2 n1 = OK (lift2 PrimFloat.div n2 n1)).
  { apply FloatFacts.positive_not_zero in H1.
    destruct n1, n2; simpl in *; try rewrite H1; reflexivity. }
  assert (Hflat : flat_image n1 n2 s
                  = OK (num_mul (lift2 PrimFloat.div n2 n1) s)).
  { unfold flat_image. simpl. now rewrite Hdiv. }
  split; [| split].
  - intros Hs. unfold eq_inf.
    rewrite FloatFacts.not_infinity_neq_inf; [exact Hflat |].
    now apply FloatFacts.finite_not_infinity.
  - intros Hs. unfold eq_inf. now rewrite Hs.
  - intros Hs. split.
    + unfold eq_inf. rewrite Hs. exact Hflat.
    + intros Hq. rewrite <- (FloatFacts.positive_mul_neg_infinity _ Hq).
      rewrite <- Hs.
      destruct n1, n2, s; reflexivity.
Qed.

End Refract.

(** C1 fails for Python floats: at the front focal point of a glass surface
    ([n1 = 1.0], [n2 = 1.5], [R = 10.0], [s = 20.0], all finite and nonzero)
    the divisor is exactly zero and the call raises ZeroDivisionError; no
    infinity comes back. *)
Lemma zero_denominator_raises :
  is_finite 10 = true /\ is_zero 10 = false
  /\ is_finite 20 = true /\ is_zero 20 = false
  /\ denominator (PyFloat 1.0) (PyFloat 1.5) (PyFloat 10.0) (PyFloat 20.0)
     = OK (PyFloat 0)
  /\ refract (PyFloat 1.0) (PyFloat 1.5) (PyFloat 10.0) (PyFloat 20.0)
     = Raise ZeroDivisionError.
Proof. repeat split; vm_compute; reflexivity. Qed.

(** The same call with a NumPy index returns the infinity. *)
Lemma refract_zero_denominator_witness :
  refract (PyFloat 1.0) (NpFloat64 1.5) (PyFloat 10.0) (PyFloat 20.0)
  = OK (NpFloat64 (1 / 0))
  /\ (1 / 0 = infinity \/ 1 / 0 = neg_infinity).
Proof.
  exact (refract_zero_denominator
           (PyFloat 1.0) (NpFloat64 1.5) (PyFloat 10.0) (PyFloat 20.0)
           (NpFloat64 0) eq_refl eq_refl eq_refl eq_refl).
Defined.

(** A flat water-to-glass surface, at a finite, a [+inf] and a [-inf] object
    distance. *)
Lemma refract_flat_witness :
  refract (PyFloat 1.333) (PyFloat 1.491) np_inf (PyFloat 26.0)
  = OK (PyFloat (1.491 / 1.333 * 26.0))
  /\ refract (PyFloat 1.333) (PyFloat 1.491) np_inf np_inf = OK np_inf
  /\ refract (PyFloat 1.333) (PyFloat 1.491) (PyFloat neg_infinity)
             (PyFloat neg_infinity)
     = OK (PyFloat neg_infinity).
Proof.
  split; [| split].
  - exact (proj1 (refract_flat (PyFloat 1.333) (PyFloat 1.491) np_inf
                               (PyFloat 26.0) eq_refl eq_refl eq_refl)
                 eq_refl).
  - exact (proj1 (proj2 (refract_flat (PyFloat 1.333) (PyFloat 1.491) np_inf
                                      np_inf eq_refl eq_refl eq_refl))
                 eq_refl).
  - exact (proj1 (proj2 (proj2 (refract_flat
                                  (PyFloat 1.333) (PyFloat 1.491)
                                  (PyFloat neg_infinity) (PyFloat neg_infinity)
                                  eq_refl eq_refl eq_refl))
                        eq_refl)).
Defined.

(** * The paraxial surface equation *)

Section SurfaceEquation.

Local Open Scope Q_scope.

Variables n1 n2 R s : Q.

Lemma Q_div_ok (x y : Q) : ~ y == 0 -> a_div x y = OK (x / y).
Proof.
  intros Hy. simpl. destruct (Qeq_bool y 0) eqn:E; [| reflexivity].
  apply Qeq_bool_eq in E. contradiction.
Qed.

Lemma Qmult_nonzero (x y : Q) : ~ x == 0 -> ~ y == 0 -> ~ x * y == 0.
Proof.
  intros Hx Hy E. apply Qmult_integral in E. tauto.
Qed.

(** The reciprocal of the divisor of line 41 is not zero and solves
    [n2 / s' + n1 / s = (n2 - n1) / R]: the object distance counts positive in
    front of the surface, hence the plus sign. *)
Lemma line_41_solves_plus_equation :
  ~ n2 == 0 -> ~ R == 0 -> ~ s == 0 ->
  ~ (n2 - n1) / (n2 * R) - n1 / (n2 * s) == 0 ->
  ~ 1 / ((n2 - n1) / (n2 * R) - n1 / (n2 * s)) == 0
  /\ n2 / (1 / ((n2 - n1) / (n2 * R) - n1 / (n2 * s))) + n1 / s
     == (n2 - n1) / R.
Proof.
  intros H2 HR Hs Hd.
  assert (Hd' : ~ (n2 - n1) * s - n1 * R == 0).
  { intros E. apply Hd.
    setoid_replace ((n2 - n1) / (n2 * R) - n1 / (n2 * s))
      with (((n2 - n1) * s - n1 * R) / (n2 * R * s))
      by (field; auto).
    rewrite E. field. auto. }
  split.
  - intros E. apply Q_apart_0_1.
    rewrite <- (Qmult_0_r ((n2 - n1) / (n2 * R) - n1 / (n2 * s))), <- E.
    field. auto.
  - field. auto.
Qed.

(** In exact arithmetic [general_image] returns that solution. *)
Lemma general_image_exact_solution :
  ~ n2 == 0 -> ~ R == 0 -> ~ s == 0 ->
  ~ (n2 - n1) / (n2 * R) - n1 / (n2 * s) == 0 ->
  exists s' : Q,
    general_image n1 n2 R s = OK s'
    /\ ~ s' == 0
    /\ n2 / s' + n1 / s == (n2 - n1) / R.
Proof.
  intros H2 HR Hs Hd.
  exists (1 / ((n2 - n1) / (n2 * R) - n1 / (n2 * s))).
  split; [| now apply line_41_solves_plus_equation].
  unfold general_image, denominator.
  rewrite !Q_div_ok by (apply Qmult_nonzero; assumption).
  cbn [bind]. exact (Q_div_ok 1 _ Hd).
Qed.

End SurfaceEquation.

Section SurfaceEquationBinary64.

Variables n1 n2 R s : num.

(** A finite nonzero binary64 value is a nonzero rational. *)
Lemma to_Q_nonzero (x : float) :
  finite_nonzero x = true -> ~ (to_Q x == 0)%Q.
Proof.
  rewrite Magnitude.finite_nonzero_class. unfold to_Q.
  destruct (Prim2SF x) as [| | | sign m e]; try discriminate. intros _ E.
  apply Qmult_integral in E. destruct E as [E | E].
  - apply Qmult_integral in E. destruct E as [E | E].
    + now destruct sign.
    + discriminate.
  - revert E. apply Qpower_not_0. discriminate.
Qed.

(** A finite quotient has a divisor that is not a zero. *)
Lemma finite_div_divisor (x y : float) :
  is_finite (x / y) = true -> is_zero y = false.
Proof.
  unfold is_zero, zero.
  rewrite Magnitude.is_finite_spec, div_spec, FloatAxioms.eqb_spec,
    FloatFacts.Prim2SF_zero.
  destruct (Prim2SF x) as [sx | sx | | sx mx ex],
           (Prim2SF y) as [sy | sy | | sy my ey];
    simpl; try discriminate; trivial; now destruct sy.
Qed.

Lemma exact_div_divisor (x y : float) :
  is_finite y = true -> exact PrimFloat.div Qdiv x y ->
  ~ (to_Q y == 0)%Q.
Proof.
  intros Hy [Hf _]. apply to_Q_nonzero. unfold finite_nonzero.
  now rewrite Hy, (finite_div_divisor x y Hf).
Qed.

(** C2, with the sign the code has: for finite [R] and [s] and a divisor of
    line 41 that does not evaluate to a zero, [refract] returns [s'], the
    binary64 evaluation of [1 / ((n2 - n1) / (n2 * R) - n1 / (n2 * s))].
    Whenever none of the seven operations of that line rounds, [s'] is not
    zero and satisfies [n2 / s' + n1 / s = (n2 - n1) / R] exactly (the object
    distance counts positive in front of the surface, hence the plus sign).
    And whatever rounds, the same expression in exact arithmetic on the
    operands' values is the nonzero solution of that equation. *)
Theorem refract_solves_surface_equation (d : num) :
  is_finite (val R) = true -> is_finite (val s) = true ->
  denominator n1 n2 R s = OK d -> is_zero (val d) = false ->
  exists s' : num,
    refract n1 n2 R s = OK s'
    /\ val s' = 1 / ((val n2 - val n1) / (val n2 * val R)
                     - val n1 / (val n2 * val s))
    /\ (line_41_exact (val n1) (val n2) (val R) (val s) ->
        ~ (to_Q (val s') == 0)%Q
        /\ (to_Q (val n2) / to_Q (val s') + to_Q (val n1) / to_Q (val s)
            == (to_Q (val n2) - to_Q (val n1)) / to_Q (val R))%Q)
    /\ (~ (to_Q (val n2) == 0)%Q -> ~ (to_Q (val R) == 0)%Q ->
        ~ (to_Q (val s) == 0)%Q ->
        ~ ((to_Q (val n2) - to_Q (val n1)) / (to_Q (val n2) * to_Q (val R))
           - to_Q (val n1) / (to_Q (val n2) * to_Q (val s)) == 0)%Q ->
        exists q : Q,
          general_image (to_Q (val n1)) (to_Q (val n2)) (to_Q (val R))
                        (to_Q (val s)) = OK q
          /\ ~ (q == 0)%Q
          /\ (to_Q (val n2) / q + to_Q (val n1) / to_Q (val s)
              == (to_Q (val n2) - to_Q (val n1)) / to_Q (val R))%Q).
Proof.
  intros HR Hs Hd Hz.
  assert (Hval : val d = (val n2 - val n1) / (val n2 * val R)
                         - val n1 / (val n2 * val s)).
  { revert Hd. unfold denominator. cbn [a_div a_sub a_mul num_arith].
    destruct (num_div (num_sub n2 n1) (num_mul n2 R)) as [a |] eqn:Ea;
      [| discriminate].
    destruct (num_div n1 (num_mul n2 s)) as [b |] eqn:Eb; [| discriminate].
    cbn [bind]. intros [= <-].
    rewrite val_num_sub.
    rewrite (num_div_val _ _ _ Ea), (num_div_val _ _ _ Eb).
    now rewrite !val_num_sub, !val_num_mul. }
  assert (Hret : exists s', refract n1 n2 R s = OK s'
                            /\ val s' = 1 / val d).
  { rewrite refract_general_branch.
    2: { apply FloatFacts.finite_not_infinity, HR. }
    2: { apply FloatFacts.not_infinity_neq_inf,
               FloatFacts.finite_not_infinity, Hs. }
    unfold general_image. rewrite Hd. cbn [bind a_div a_one num_arith].
    destruct d as [y | y]; cbn [num_div val] in *.
    - unfold is_zero, zero in Hz. rewrite Hz. eexists. split; reflexivity.
    - eexists. split; reflexivity. }
  destruct Hret as (s' & Hs' & Vs'). exists s'.
  split; [exact Hs' |]. rewrite Vs', Hval. split; [reflexivity |]. split.
  - intros (E1 & E2 & E3 & E4 & E5 & E6 & E7).
    pose proof (exact_div_divisor _ _ (proj1 E2) E3) as N2R.
    pose proof (exact_div_divisor _ _ (proj1 E4) E5) as N2s.
    assert (Nd : ~ (to_Q ((val n2 - val n1) / (val n2 * val R)
                          - val n1 / (val n2 * val s)) == 0)%Q).
    { apply to_Q_nonzero. unfold finite_nonzero.
      rewrite (proj1 E6). rewrite <- Hval, Hz. reflexivity. }
    destruct E1 as [_ E1], E2 as [_ E2], E3 as [_ E3], E4 as [_ E4],
             E5 as [_ E5], E6 as [_ E6], E7 as [_ E7].
    rewrite E2 in N2R. rewrite E4 in N2s.
    rewrite E6, E3, E5, E1, E2, E4 in Nd.
    rewrite E7, E6, E3, E5, E1, E2, E4.
    assert (H2 : ~ (to_Q (val n2) == 0)%Q).
    { intros E. apply N2R. rewrite E. apply Qmult_0_l. }
    assert (HR' : ~ (to_Q (val R) == 0)%Q).
    { intros E. apply N2R. rewrite E. apply Qmult_0_r. }
    assert (Hs'' : ~ (to_Q (val s) == 0)%Q).
    { intros E. apply N2s. rewrite E. apply Qmult_0_r. }
    setoid_replace (to_Q 1) with 1%Q by (vm_compute; reflexivity).
    now apply line_41_solves_plus_equation.
  - apply general_image_exact_solution.
Qed.

End SurfaceEquationBinary64.

(** C2 fails with the minus sign.  On exactly representable operands nothing
    rounds: [refract(1.0, 2.0, 1.0, 2.0)] is 4.0, for which [n2/s' - n1/s] is 0
    while [(n2 - n1)/R] is 1; the sum [n2/s' + n1/s] is 1.  And where the
    operations round, as at [refract(1.0, 1.5, 10.0, 30.0)], the sum misses
    [(n2 - n1)/R] in the last place. *)
Lemma minus_equation_fails :
  refract (PyFloat 1) (PyFloat 2) (PyFloat 1) (PyFloat 2) = OK (PyFloat 4)
  /\ (2 / 4 - 1 / 2 = 0)%float
  /\ ((2 - 1) / 1 = 1)%float
  /\ (2 / 4 - 1 / 2 =? (2 - 1) / 1)%float = false
  /\ (2 / 4 + 1 / 2 =? (2 - 1) / 1)%float = true
  /\ refract (PyFloat 1.0) (PyFloat 1.5) (PyFloat 10.0) (PyFloat 30.0)
     = OK (PyFloat 90.00000000000001)
  /\ (1.5 / 90.00000000000001 + 1.0 / 30.0 =? (1.5 - 1.0) / 10.0)%float
     = false.
Proof. repeat split; vm_compute; reflexivity. Qed.

(** On the operands 1, 2, 1, 2 nothing rounds: the image lies at 4. *)
Lemma refract_solves_surface_equation_witness :
  exists s' : num,
    refract (PyFloat 1) (PyFloat 2) (PyFloat 1) (PyFloat 2) = OK s'
    /\ val s' = 1 / ((2 - 1) / (2 * 1) - 1 / (2 * 2))
    /\ ~ (to_Q (val s') == 0)%Q
    /\ (to_Q 2 / to_Q (val s') + to_Q 1 / to_Q 2
        == (to_Q 2 - to_Q 1) / to_Q 1)%Q.
Proof.
  destruct (refract_solves_surface_equation
              (PyFloat 1) (PyFloat 2) (PyFloat 1) (PyFloat 2) (PyFloat 0.25)
              eq_refl eq_refl eq_refl eq_refl)
    as (s' & H1 & H2 & H3 & _).
  exists s'. split; [exact H1 |]. split; [exact H2 |].
  apply H3. repeat split; vm_compute; reflexivity.
Defined.

(** Air to glass, [R = 10], object at 30: in exact arithmetic the image lies
    at 90. *)
Example general_image_exact :
  exists s' : Q,
    general_image 1%Q (3 # 2)%Q 10%Q 30%Q = OK s' /\ (s' == 90)%Q.
Proof. eexists. split; vm_compute; reflexivity. Qed.

(** * The system tracer *)

Section Tracer.

(** C10: tracing an empty sequence of surfaces returns [None]: the loop body
    never runs and line 54 is reached; nothing is raised. *)
Theorem trace_system_empty : trace_system [] = OK VNone.
Proof. reflexivity. Qed.

(** C8: tracing a system of exactly one surface is the call of [refract] on
    that surface with the object at infinity: same value, same exception,
    and the surface's [t] plays no part (no translation step). *)
Theorem trace_system_single (surf : surface) :
  trace_system [surf]
  = (s_prime <- refract (n1 surf) (n2 surf) (R surf) np_inf ;;
     OK (VNum s_prime))
  /\ forall t' : num,
       trace_system [Surface (n1 surf) (n2 surf) (R surf) t']
       = trace_system [surf].
Proof.
  split; [| intros t'];
    unfold trace_system, trace_loop; simpl;
    destruct (refract _ _ _ _); reflexivity.
Qed.

(** Between two surfaces the image distance is carried to the next vertex
    as [s = t - s']. *)
Lemma trace_system_pair (a b : surface) :
  trace_system [a; b]
  = (s1 <- refract (n1 a) (n2 a) (R a) np_inf ;;
     s2 <- refract (n1 b) (n2 b) (R b) (num_sub (t a) s1) ;;
     OK (VNum s2)).
Proof.
  unfold trace_system, trace_loop; simpl.
  destruct (refract _ _ _ np_inf) as [s1 |]; [| reflexivity]. simpl.
  destruct (refract _ _ _ _); reflexivity.
Qed.

(** A sequence that is not empty never yields [None]: the loop returns at
    its last surface. *)
Lemma trace_loop_number (len : Z) (rest : list surface) :
  forall (i : Z) (s : num) (v : pyval),
    rest <> [] -> (i + Z.of_nat (List.length rest) = len)%Z ->
    trace_loop len i s rest = OK v -> exists x, v = VNum x.
Proof.
  induction rest as [| surf rest IH]; intros i s v Hne Hlen; [easy |].
  simpl. destruct (refract _ _ _ _) as [s_prime |]; [| discriminate].
  simpl. destruct (i =? len - 1)%Z eqn:E.
  - intros [= <-]. now exists s_prime.
  - apply IH.
    + intros ->. simpl in Hlen. lia.
    + simpl List.length in Hlen. lia.
Qed.

Lemma trace_system_number (surfaces : list surface) (v : pyval) :
  surfaces <> [] -> trace_system surfaces = OK v -> exists x, v = VNum x.
Proof.
  intros Hne. unfold trace_system.
  apply trace_loop_number; [exact Hne | lia].
Qed.

(** The tracer raises only what [refract] raises. *)
Lemma trace_loop_raises (len : Z) (rest : list surface) :
  forall (i : Z) (s : num) (e : exception),
    trace_loop len i s rest = Raise e -> e = ZeroDivisionError.
Proof.
  induction rest as [| surf rest IH]; intros i s e; simpl; [discriminate |].
  destruct (refract _ _ _ _) as [s_prime |] eqn:E; cbn [bind].
  - destruct (i =? len - 1)%Z; [discriminate | apply IH].
  - intros [= <-]. now apply refract_raises in E.
Qed.

Lemma trace_system_raises (surfaces : list surface) (e : exception) :
  trace_system surfaces = Raise e -> e = ZeroDivisionError.
Proof. apply trace_loop_raises. Qed.

End Tracer.

(** * The system builder *)

Section Builder.

Variable n : num.   (* the trial fill index *)

(** C5: for every fill index the builder returns exactly the systems
    "empty", "one_filled" and "both_filled"; each has six surfaces (so at
    least one), and the last surface of each has [t = 0]. *)
Theorem build_systems_shape :
  keys (build_systems n) = ["empty"; "one_filled"; "both_filled"]
  /\ Forall (fun entry =>
               List.length (snd entry) = 6%nat
               /\ (1 <= List.length (snd entry))%nat
               /\ exists front final,
                    snd entry = (front ++ [final])%list /\ t final = PyFloat 0)
            (build_systems n).
Proof.
  split; [reflexivity |].
  unfold build_systems.
  repeat constructor; simpl; try lia;
    eexists [_; _; _; _; _], _; split; reflexivity.
Qed.

(** C6: the three systems share one geometry; the media are air/plexi
    throughout in "empty"; in "one_filled" only the second cavity (after the
    partition exit, before the second inner curved surface) holds the fill
    liquid; in "both_filled" both cavities hold it and only the two outermost
    surfaces touch air; the inner curved surfaces carry [+R_inner] on the
    entry side and [-R_inner] on the exit side. *)
Theorem build_systems_media :
  exists empty one_filled both_filled,
    build_systems n
    = [("empty", empty); ("one_filled", one_filled);
       ("both_filled", both_filled)]
    /\ geometry empty = geometry one_filled
    /\ geometry one_filled = geometry both_filled
    /\ geometry empty
       = [ (R_outer, wall_thickness);
           (R_inner, cavity_thickness);
           (np_inf, partition_thickness);
           (np_inf, cavity_thickness);
           (num_opp R_inner, wall_thickness);
           (num_opp R_outer, PyFloat 0) ]
    /\ media empty
       = [ (n_air, n_plexi); (n_plexi, n_air); (n_air, n_plexi);
           (n_plexi, n_air); (n_air, n_plexi); (n_plexi, n_air) ]
    /\ media one_filled
       = [ (n_air, n_plexi); (n_plexi, n_air); (n_air, n_plexi);
           (n_plexi, n); (n, n_plexi); (n_plexi, n_air) ]
    /\ media both_filled
       = [ (n_air, n_plexi); (n_plexi, n); (n, n_plexi);
           (n_plexi, n); (n, n_plexi); (n_plexi, n_air) ].
Proof.
  do 3 eexists. split; [reflexivity |].
  repeat split; reflexivity.
Qed.

End Builder.

(** The constants are the documented ones. *)
Lemma documented_constants :
  R_outer = PyFloat 30 /\ R_inner = PyFloat 27
  /\ num_opp R_outer = PyFloat (-30) /\ num_opp R_inner = PyFloat (-27)
  /\ wall_thickness = PyFloat 3 /\ partition_thickness = PyFloat 2
  /\ cavity_thickness = PyFloat 26
  /\ n_plexi = PyFloat 1.491 /\ n_air = PyFloat 1.
Proof. repeat split; reflexivity. Qed.

(** * The predictor *)

Section Predictor.

Lemma dict_map_cons {A B : Type} (f : A -> exn B) (k : string) (x : A)
      (d : dict A) (r : dict B) :
  dict_map f ((k, x) :: d) = OK r ->
  exists y r', f x = OK y /\ dict_map f d = OK r' /\ r = (k, y) :: r'.
Proof.
  simpl. destruct (f x) as [y |]; [| discriminate].
  simpl. destruct (dict_map f d) as [r' |]; [| discriminate].
  intros [= <-]. now exists y, r'.
Qed.

(** Whenever the predictor returns, it returns the three focal lengths, and
    the one of "empty" is the constant [empty_focal]. *)
Lemma predict_focals_shape (n : num) (focals : dict pyval) :
  predict_focals n = OK focals ->
  exists f_one f_both,
    focals = [ ("empty", VNum (PyFloat empty_focal));
               ("one_filled", VNum f_one);
               ("both_filled", VNum f_both) ].
Proof.
  unfold predict_focals, build_systems. intros H.
  apply dict_map_cons in H as (v1 & r1 & H1 & H & ->).
  apply dict_map_cons in H as (v2 & r2 & H2 & H & ->).
  apply dict_map_cons in H as (v3 & r3 & H3 & H & ->).
  injection H as <-.
  vm_compute in H1. injection H1 as <-.
  apply trace_system_number in H2 as [f_one ->]; [| discriminate].
  apply trace_system_number in H3 as [f_both ->]; [| discriminate].
  now exists f_one, f_both.
Qed.

Lemma dict_map_raises {A B : Type} (f : A -> exn B) (P : exception -> Prop) :
  (forall x e, f x = Raise e -> P e) ->
  forall (d : dict A) (e : exception), dict_map f d = Raise e -> P e.
Proof.
  intros Hf. induction d as [| [k x] d IH]; intros e; simpl; [discriminate |].
  destruct (f x) as [y |] eqn:E; cbn [bind].
  - destruct (dict_map f d) as [r |]; cbn [bind]; [discriminate |].
    intros [= <-]. now apply IH.
  - intros [= <-]. now apply Hf in E.
Qed.

(** The predictor raises nothing but ZeroDivisionError. *)
Lemma predict_focals_raises (n : num) (e : exception) :
  predict_focals n = Raise e -> e = ZeroDivisionError.
Proof.
  unfold predict_focals.
  apply (dict_map_raises trace_system (fun e => e = ZeroDivisionError)).
  apply trace_system_raises.
Qed.

(** A NumPy fill index never makes the predictor raise: every division that
    involves it is a NumPy division, and the others have constant nonzero
    divisors. *)
Lemma predict_focals_numpy_returns (x : float) :
  exists focals, predict_focals (NpFloat64 x) = OK focals.
Proof. cbv. split_tests; eexists; reflexivity. Qed.

(** With a NumPy fill index each of the two predictions that depend on it is
    a NumPy scalar, or the Python float the last surface returns for an
    object at infinity. *)
Lemma predict_focals_numpy_kinds (x : float) :
  exists f_one f_both,
    predict_focals (NpFloat64 x)
    = OK [ ("empty", VNum (PyFloat empty_focal));
           ("one_filled", VNum f_one);
           ("both_filled", VNum f_both) ]
    /\ (is_np f_one = true \/ f_one = PyFloat 61.099796334012204)
    /\ (is_np f_both = true \/ f_both = PyFloat 61.099796334012204).
Proof.
  cbv. split_tests; do 2 eexists;
    (split; [reflexivity |]);
    split; ((left; reflexivity) || (right; reflexivity)).
Qed.

(** The predictions at the script's initial guess, as a Python float and
    as a NumPy scalar. *)
Example predict_focals_at_default :
  predict_focals n_water
  = OK [ ("empty", VNum (PyFloat (-439.1120324543771)));
         ("one_filled", VNum (PyFloat 106.17211436938376));
         ("both_filled", VNum (PyFloat 33.48324227392718)) ]
  /\ predict_focals (NpFloat64 1.333)
     = OK [ ("empty", VNum (PyFloat (-439.1120324543771)));
            ("one_filled", VNum (NpFloat64 106.17211436938376));
            ("both_filled", VNum (NpFloat64 33.48324227392718)) ].
Proof. split; vm_compute; reflexivity. Qed.

(** C4: with fill index 1.333 and the documented constants (radii 30 and
    27, wall 3, partition 2, cavity 26, indices 1.491 and 1.000) the predicted
    focal length of "empty" is -439.11... mm: negative, with a magnitude of
    some hundreds of millimetres. *)
Theorem predict_focals_empty_at_default :
  R_outer = PyFloat 30 /\ R_inner = PyFloat 27
  /\ wall_thickness = PyFloat 3 /\ partition_thickness = PyFloat 2
  /\ cavity_thickness = PyFloat 26
  /\ n_plexi = PyFloat 1.491 /\ n_air = PyFloat 1
  /\ exists d,
       predict_focals (PyFloat 1.333) = OK d
       /\ dict_get d "empty" = OK (VNum (PyFloat empty_focal))
       /\ (empty_focal <? 0) = true
       /\ (100 <=? abs empty_focal) = true
       /\ (abs empty_focal <? 1000) = true.
Proof.
  repeat (split; [reflexivity |]).
  eexists. split; [vm_compute; reflexivity |].
  repeat split; vm_compute; reflexivity.
Qed.

(** C9: the fill index does not reach the "empty" entry.  The "empty"
    system is the same for any two fill indices and its trace is the
    constant [empty_focal]; any two calls of the predictor that return agree
    on the entry "empty", which holds that constant. *)
Theorem predict_focals_empty_independent (n n' : num) :
  (sys <- dict_get (build_systems n) "empty" ;; trace_system sys)
  = (sys <- dict_get (build_systems n') "empty" ;; trace_system sys)
  /\ (sys <- dict_get (build_systems n) "empty" ;; trace_system sys)
     = OK (VNum (PyFloat empty_focal))
  /\ forall focals focals' : dict pyval,
       predict_focals n = OK focals -> predict_focals n' = OK focals' ->
       dict_get focals "empty" = dict_get focals' "empty"
       /\ dict_get focals "empty" = OK (VNum (PyFloat empty_focal)).
Proof.
  split; [reflexivity |].
  split; [vm_compute; reflexivity |].
  intros focals focals' H H'.
  apply predict_focals_shape in H as (f1 & f2 & ->).
  apply predict_focals_shape in H' as (f1' & f2' & ->).
  split; reflexivity.
Qed.

(** The "empty" system itself is the same list for every fill index. *)
Lemma build_systems_empty_independent (n n' : num) :
  dict_get (build_systems n) "empty" = dict_get (build_systems n') "empty".
Proof. reflexivity. Qed.

End Predictor.

(** The script's initial guess against a NumPy index of the fit interval. *)
Lemma predict_focals_empty_independent_witness :
  exists focals focals',
    predict_focals (PyFloat 1.333) = OK focals
    /\ predict_focals (NpFloat64 1.5) = OK focals'
    /\ dict_get focals "empty" = dict_get focals' "empty"
    /\ dict_get focals "empty" = OK (VNum (PyFloat empty_focal)).
Proof.
  do 2 eexists.
  split; [vm_compute; reflexivity |].
  split; [vm_compute; reflexivity |].
  apply (predict_focals_empty_independent (PyFloat 1.333) (NpFloat64 1.5));
    vm_compute; reflexivity.
Defined.

(** * Predictions on the fit interval

    For a fill index between 1.0 and 1.6 (the bounds handed to
    [minimize_scalar]) no surface turns a number into NaN. *)

Section Numbers.

Lemma refract_val_spec (n1 n2 R s v : num) :
  refract n1 n2 R s = OK v ->
  val v = refract_val (val n1) (val n2) (val R) (val s).
Proof.
  unfold refract, refract_val, isinf, eq_inf, flat_image, focus_image,
    general_image, denominator.
  destruct (is_infinity (val R)), (val s =? infinity);
    destruct n1 as [x1 | x1], n2 as [x2 | x2], R as [r | r], s as [y | y];
    cbn -[PrimFloat.eqb PrimFloat.div PrimFloat.mul PrimFloat.sub];
    repeat (match goal with
            | |- context [if ?c then _ else _] => destruct c
            end;
            cbn -[PrimFloat.eqb PrimFloat.div PrimFloat.mul PrimFloat.sub]);
    try discriminate; now intros [= <-].
Qed.

Lemma refract_number (surf : surface) (s v : num) :
  regular surf -> is_nan (val s) = false ->
  refract (n1 surf) (n2 surf) (R surf) s = OK v ->
  is_nan (val v) = false.
Proof.
  intros (H1 & H2 & _ & HR) Hs E.
  rewrite (refract_val_spec _ _ _ _ _ E). unfold refract_val.
  destruct (is_infinity (val (R surf))).
  - destruct (_ =? infinity); [reflexivity |].
    now apply Magnitude.mul_number.
  - destruct HR as [HA HF]. destruct (_ =? infinity); [exact HF |].
    apply Magnitude.div_number; [reflexivity |].
    apply Magnitude.sub_number; [exact HA |].
    apply Magnitude.div_number; [exact H1 |].
    now apply Magnitude.mul_number.
Qed.

Lemma trace_loop_numbers (len : Z) (rest : list surface) :
  forall (i : Z) (s v : num),
    Forall regular rest -> is_nan (val s) = false ->
    trace_loop len i s rest = OK (VNum v) -> is_nan (val v) = false.
Proof.
  induction rest as [| surf rest IH]; intros i s v Hreg Hs; [discriminate |].
  inversion Hreg as [| ? ? Hsurf Hrest]; subst.
  cbn [trace_loop].
  destruct (refract _ _ _ s) as [s_prime |] eqn:E; [| discriminate].
  cbn [bind]. pose proof (refract_number surf s s_prime Hsurf Hs E) as Hp.
  destruct (i =? len - 1)%Z.
  - now intros [= <-].
  - apply IH; [exact Hrest |].
    rewrite val_num_sub.
    apply Magnitude.sub_number; [apply Hsurf | exact Hp].
Qed.

End Numbers.

Section Regular.

Variable n : num.   (* the trial fill index *)
Hypothesis Hn : Magnitude.unit_range (val n).

Lemma unit_range_plexi : Magnitude.unit_range 1.491.
Proof. eexists. split; [vm_compute; reflexivity | reflexivity]. Qed.

Lemma normal_27 : Magnitude.normal (-48) (-48) (Prim2SF 27).
Proof. vm_compute. repeat split; discriminate. Qed.

Lemma normal_plexi_27 : Magnitude.normal (-47) (-47) (Prim2SF (1.491 * -27)).
Proof. vm_compute. repeat split; discriminate. Qed.

(** The flat faces of the partition, glass to liquid and liquid to glass. *)
Lemma regular_glass_liquid_flat (t' : num) :
  is_finite (val t') = true -> regular (Surface n_plexi n np_inf t').
Proof.
  intros Ht. unfold regular. cbn [n1 n2 R t]. repeat split; trivial.
  - now apply Magnitude.unit_range_finite_nonzero.
  - change (is_infinity (val np_inf)) with true. cbv iota.
    apply Magnitude.unit_range_div; [exact Hn | exact unit_range_plexi].
Qed.

Lemma regular_liquid_glass_flat (t' : num) :
  is_finite (val t') = true -> regular (Surface n n_plexi np_inf t').
Proof.
  intros Ht. unfold regular. cbn [n1 n2 R t]. repeat split; trivial.
  - now apply Magnitude.unit_range_finite_nonzero.
  - change (is_infinity (val np_inf)) with true. cbv iota.
    apply Magnitude.unit_range_div; [exact unit_range_plexi | exact Hn].
Qed.

(** The curved inner faces, glass to liquid and liquid to glass. *)
Lemma regular_glass_liquid_curved (t' : num) :
  is_finite (val t') = true -> regular (Surface n_plexi n R_inner t').
Proof.
  intros Ht. unfold regular. cbn [n1 n2 R t]. 
  change (val R_inner) with 27. change (val n_plexi) with 1.491.
  change (is_infinity 27) with false. cbv iota.
  pose proof (Magnitude.unit_range_mul (-48) (-48) (val n) 27 Hn normal_27
                ltac:(lia) ltac:(lia)) as Hm.
  repeat split; trivial.
  - now apply Magnitude.unit_range_finite_nonzero.
  - apply (Magnitude.unit_range_sub_div (-48) (-48 + 2)); trivial; try lia.
    exact unit_range_plexi.
  - apply Magnitude.div_number.
    + rewrite Magnitude.finite_nonzero_class.
      now apply (Magnitude.normal_finite_nonzero (-48) (-48 + 2)).
    + apply Magnitude.unit_range_sub_number; [exact Hn | exact unit_range_plexi].
Qed.

Lemma regular_liquid_glass_curved (t' : num) :
  is_finite (val t') = true -> regular (Surface n n_plexi (num_opp R_inner) t').
Proof.
  intros Ht. unfold regular. cbn [n1 n2 R t]. 
  change (val (num_opp R_inner)) with (-27). change (val n_plexi) with 1.491.
  change (is_infinity (-27)) with false. cbv iota.
  repeat split; trivial.
  - now apply Magnitude.unit_range_finite_nonzero.
  - apply (Magnitude.unit_range_sub_div (-47) (-47)); trivial; try lia.
    + exact unit_range_plexi.
    + exact normal_plexi_27.
  - apply Magnitude.div_number; [reflexivity |].
    apply Magnitude.unit_range_sub_number; [exact unit_range_plexi | exact Hn].
Qed.

(** Every surface of every system the builder returns is regular. *)
Lemma build_systems_regular :
  Forall (fun entry => Forall regular (snd entry)) (build_systems n).
Proof.
  unfold build_systems.
  repeat (apply Forall_cons || apply Forall_nil); cbn [snd];
    repeat (apply Forall_cons || apply Forall_nil);
    try (apply regular_glass_liquid_flat; reflexivity);
    try (apply regular_liquid_glass_flat; reflexivity);
    try (apply regular_glass_liquid_curved; reflexivity);
    try (apply regular_liquid_glass_curved; reflexivity);
    vm_compute; repeat split; reflexivity.
Qed.

End Regular.

Lemma dict_map_numbers (d : dict (list surface)) :
  Forall (fun entry => Forall regular (snd entry)) d ->
  forall focals,
    dict_map trace_system d = OK focals ->
    Forall (fun entry =>
              forall v, snd entry = VNum v -> is_nan (val v) = false)
           focals.
Proof.
  induction d as [| [k sys] d IH]; intros Hreg focals; cbn [dict_map].
  - intros [= <-]. constructor.
  - inversion Hreg as [| ? ? Hsys Hd]; subst. cbn [snd] in Hsys.
    destruct (trace_system sys) as [y |] eqn:E; [| discriminate].
    cbn [bind].
    destruct (dict_map trace_system d) as [r |]; [| discriminate].
    cbn [bind]. intros [= <-]. constructor; [| now apply IH].
    cbn [snd]. intros v ->.
    exact (trace_loop_numbers _ sys 0%Z np_inf v Hsys eq_refl E).
Qed.

(** On the fit interval the predictions are numbers. *)
Lemma predict_focals_numbers (n : num) (focals : dict pyval) :
  (1 <=? val n) = true -> (val n <=? 1.6) = true ->
  predict_focals n = OK focals ->
  Forall (fun entry => forall v, snd entry = VNum v -> is_nan (val v) = false)
         focals.
Proof.
  intros Hlo Hhi. apply dict_map_numbers, build_systems_regular.
  now apply Magnitude.fit_interval_unit_range.
Qed.

(** * The error function *)

Lemma val_num_add (a b : num) : val (num_add a b) = val a + val b.
Proof. now destruct a, b. Qed.

Lemma val_num_abs (a : num) : val (num_abs a) = abs (val a).
Proof. now destruct a. Qed.

Lemma abs_number (x : float) : is_nan (abs x) = is_nan x.
Proof.
  rewrite !FloatFacts.is_nan_spec, abs_spec. apply FloatFacts.SFabs_not_nan.
Qed.

Lemma abs_abs (x : float) : abs (abs x) = abs x.
Proof.
  apply Prim2SF_inj. rewrite !abs_spec. now destruct (Prim2SF x).
Qed.

(** A number that is not a zero has a positive absolute value. *)
Lemma abs_positive (x : float) :
  is_nan x = false -> (x =? 0) = false -> (0 <? abs x) = true.
Proof.
  rewrite FloatFacts.is_nan_spec, FloatAxioms.eqb_spec, ltb_spec, abs_spec,
    FloatFacts.Prim2SF_zero.
  destruct (Prim2SF x) as [s | s | | s m e]; simpl; try discriminate; trivial;
    now destruct s.
Qed.

Lemma positive_number (x : float) : (0 <? x) = true -> is_nan x = false.
Proof.
  rewrite ltb_spec, FloatFacts.is_nan_spec, FloatFacts.Prim2SF_zero.
  now destruct (Prim2SF x).
Qed.

Lemma positive_abs (x : float) : (0 <? x) = true -> abs x = x.
Proof.
  rewrite ltb_spec, FloatFacts.Prim2SF_zero. intros H.
  apply Prim2SF_inj. rewrite abs_spec.
  destruct (Prim2SF x) as [s | s | | s m e]; simpl in *;
    try discriminate; destruct s; simpl in *; trivial; discriminate.
Qed.

(** The correctly rounded square is one function [pow2] can be. *)
Lemma mul_pow2_ge_zero (x : float) :
  (0 <? x) = true -> is_infinity x = false -> (0 <=? mul_pow2 x) = true.
Proof.
  intros H _. now apply FloatFacts.mul_self_ge_zero, positive_number.
Qed.

Lemma mul_pow2_small (x : float) :
  (0 <? x) = true -> (x <=? 1) = true -> is_infinity (mul_pow2 x) = false.
Proof.
  intros H0 H1.
  apply FloatFacts.finite_not_infinity, Magnitude.mul_self_small.
  now rewrite positive_abs.
Qed.

Section Cost.

Variable pow2 : float -> float.   (* the C library's pow(x, 2.0) *)

(** What the cost asks of the C library, on finite positive bases: the
    square is a number and at least zero, and the square of a value that is
    at most 1 is not infinite. *)
Hypothesis pow2_ge_zero :
  forall x, (0 <? x) = true -> is_infinity x = false ->
            (0 <=? pow2 x) = true.
Hypothesis pow2_small :
  forall x, (0 <? x) = true -> (x <=? 1) = true ->
            is_infinity (pow2 x) = false.

Lemma small_finite (x : float) : (abs x <=? 1) = true -> is_finite x = true.
Proof.
  rewrite leb_spec, abs_spec, Magnitude.is_finite_spec.
  now destruct (Prim2SF x) as [| [] | |].
Qed.

Lemma c_pow2_ge_zero (x : float) :
  is_nan x = false -> (0 <=? c_pow2 pow2 x) = true.
Proof.
  intros Hx. unfold c_pow2. rewrite Hx.
  destruct (is_infinity x) eqn:Hi; [reflexivity |].
  destruct (x =? 0) eqn:Hz; [reflexivity |].
  apply pow2_ge_zero; [now apply abs_positive |].
  unfold is_infinity in *. now rewrite abs_abs.
Qed.

Lemma c_pow2_small (x : float) :
  (abs x <=? 1) = true -> is_infinity (c_pow2 pow2 x) = false.
Proof.
  intros Hx. pose proof (small_finite x Hx) as Hf.
  unfold is_finite in Hf. apply negb_true_iff, orb_false_iff in Hf.
  destruct Hf as [Hn Hi]. unfold c_pow2. rewrite Hn, Hi.
  destruct (x =? 0) eqn:Hz; [reflexivity |].
  apply pow2_small; [now apply abs_positive | exact Hx].
Qed.

Lemma num_pow2_ge_zero (q e : num) :
  is_nan (val q) = false -> num_pow2 pow2 q = OK e -> (0 <=? val e) = true.
Proof.
  destruct q as [x | x]; cbn [val num_pow2]; intros Hx.
  - rewrite Hx. destruct (is_infinity x) eqn:Hinf.
    + intros [= <-]. cbn [val].
      destruct (FloatFacts.is_infinity_cases x Hinf) as [-> | ->];
        reflexivity.
    + destruct (x =? 0); [now intros [= <-] |].
      destruct (abs x =? 1); [now intros [= <-] |].
      destruct (is_infinity (c_pow2 pow2 (abs x))); [discriminate |].
      intros [= <-]. apply c_pow2_ge_zero. now rewrite abs_number.
  - intros [= <-]. now apply c_pow2_ge_zero.
Qed.

(** Only a Python float can raise, and only OverflowError. *)
Lemma num_pow2_raises (q : num) (e : exception) :
  num_pow2 pow2 q = Raise e -> e = OverflowError /\ is_np q = false.
Proof.
  destruct q as [x | x]; cbn [num_pow2]; [| discriminate].
  repeat match goal with
         | |- context [if ?c then _ else _] => destruct c
         end; try discriminate.
  now intros [= <-].
Qed.

Lemma num_pow2_small_returns (q : num) :
  (abs (val q) <=? 1) = true -> exists e, num_pow2 pow2 q = OK e.
Proof.
  destruct q as [x | x]; cbn [val num_pow2]; intros Hx.
  - rewrite (c_pow2_small (abs x)) by now rewrite abs_abs.
    repeat match goal with
           | |- context [if ?c then _ else _] => destruct c
           end; eexists; reflexivity.
  - eexists. reflexivity.
Qed.

(** Against a nonzero measured value only the square can raise. *)
Lemma squared_relative_error_raises (predicted measured : num)
      (e : exception) :
  (val measured =? 0) = false ->
  squared_relative_error pow2 predicted measured = Raise e ->
  e = OverflowError.
Proof.
  intros Hm. unfold squared_relative_error.
  destruct (num_div _ measured) as [q |] eqn:E; cbn [bind].
  - intros H. now apply num_pow2_raises in H.
  - exfalso. revert E.
    destruct predicted, measured; simpl in *; try discriminate;
      now rewrite Hm.
Qed.

(** One term of the cost is at least zero when the prediction is a number. *)
Lemma squared_relative_error_ge_zero (predicted measured e : num) :
  is_nan (val predicted) = false ->
  is_finite (val measured) = true -> is_zero (val measured) = false ->
  squared_relative_error pow2 predicted measured = OK e ->
  (0 <=? val e) = true.
Proof.
  intros Hp Hm Hz. unfold squared_relative_error.
  destruct (num_div _ measured) as [q |] eqn:E; [| discriminate].
  cbn [bind]. apply num_pow2_ge_zero.
  rewrite (num_div_val _ _ _ E), val_num_sub, !val_num_abs.
  now apply FloatFacts.relative_error_not_nan.
Qed.

(** The term returns when the prediction is a NumPy scalar, and when the
    relative error has magnitude at most 1. *)
Lemma squared_relative_error_returns (predicted measured : num) :
  (val measured =? 0) = false ->
  is_np predicted = true
  \/ (abs ((abs (val predicted) - abs (val measured)) / val measured) <=? 1)
     = true ->
  exists e, squared_relative_error pow2 predicted measured = OK e.
Proof.
  intros Hm Hp. unfold squared_relative_error.
  destruct (num_div _ measured) as [q |] eqn:E; cbn [bind].
  - destruct Hp as [Hp | Hp].
    + destruct predicted as [a | a]; [discriminate |].
      destruct measured as [m | m]; injection E as <-;
        eexists; reflexivity.
    + apply num_pow2_small_returns.
      now rewrite (num_div_val _ _ _ E), val_num_sub, !val_num_abs.
  - exfalso. revert E.
    destruct predicted, measured; simpl in *; try discriminate;
      now rewrite Hm.
Qed.

(** The loop of lines 108-111 over the three predictions. *)
Lemma error_function_sum (n f_one f_both : num) :
  predict_focals n
  = OK [ ("empty", VNum (PyFloat empty_focal));
         ("one_filled", VNum f_one);
         ("both_filled", VNum f_both) ] ->
  error_function pow2 n
  = (e1 <- squared_relative_error pow2 (PyFloat empty_focal)
                                  (PyFloat (-500.0)) ;;
     e2 <- squared_relative_error pow2 f_one (PyFloat 132.0) ;;
     e3 <- squared_relative_error pow2 f_both (PyFloat 55.0) ;;
     OK (num_add (num_add (num_add (PyFloat 0.0) e1) e2) e3)).
Proof. intros H. unfold error_function. rewrite H. reflexivity. Qed.

(** C3: for a trial fill index, a value between the bounds 1.0 and 1.6 the
    minimiser is given, [error_function] returns whenever the index is a
    NumPy scalar, and whenever it returns its value [v] is
      - the sum, taken from 0.0 in the order of the measured map, of the three
        squared relative errors [((|predicted| - |measured|) / measured) ** 2],
        each with the Predictor's entry of the same name and divided by the
        measured value;
      - at least zero.
    With a Python float as the index it can raise, and then only
    ZeroDivisionError (a divisor of the Predictor is exactly zero) or
    OverflowError (a square overflows). *)
Theorem error_function_cost (n : num) :
  (1 <=? val n) = true -> (val n <=? 1.6) = true ->
  (is_np n = true -> exists v, error_function pow2 n = OK v)
  /\ (forall v,
        error_function pow2 n = OK v ->
        exists f_one f_both e1 e2 e3,
          predict_focals n
          = OK [ ("empty", VNum (PyFloat empty_focal));
                 ("one_filled", VNum f_one);
                 ("both_filled", VNum f_both) ]
          /\ squared_relative_error pow2 (PyFloat empty_focal)
                                    (PyFloat (-500.0)) = OK e1
          /\ squared_relative_error pow2 f_one (PyFloat 132.0) = OK e2
          /\ squared_relative_error pow2 f_both (PyFloat 55.0) = OK e3
          /\ v = num_add (num_add (num_add (PyFloat 0.0) e1) e2) e3
          /\ (0 <=? val v) = true)
  /\ (forall e,
        error_function pow2 n = Raise e ->
        is_np n = false /\ (e = ZeroDivisionError \/ e = OverflowError)).
Proof.
  intros Hlo Hhi.
  assert (Hnp : is_np n = true -> exists v, error_function pow2 n = OK v).
  { destruct n as [x | x]; [discriminate | intros _].
    destruct (predict_focals_numpy_kinds x) as (fo & fb & Hp & Ho & Hb).
    rewrite (error_function_sum _ _ _ Hp).
    destruct (squared_relative_error_returns
                (PyFloat empty_focal) (PyFloat (-500.0)) eq_refl
                (or_intror eq_refl)) as [e1 ->].
    destruct (squared_relative_error_returns fo (PyFloat 132.0) eq_refl)
      as [e2 ->].
    { destruct Ho as [Ho | ->]; [now left | right; reflexivity]. }
    destruct (squared_relative_error_returns fb (PyFloat 55.0) eq_refl)
      as [e3 ->].
    { destruct Hb as [Hb | ->]; [now left | right; reflexivity]. }
    eexists. reflexivity. }
  split; [exact Hnp |]. split.
  - intros v Hv.
    destruct (predict_focals n) as [focals |] eqn:Hp;
      [| unfold error_function in Hv; rewrite Hp in Hv; discriminate].
    pose proof (predict_focals_numbers n focals Hlo Hhi Hp) as Hnum.
    destruct (predict_focals_shape n focals Hp) as (f_one & f_both & ->).
    rewrite (error_function_sum _ _ _ Hp) in Hv.
    destruct (squared_relative_error pow2 (PyFloat empty_focal) _)
      as [e1 |] eqn:E1; [| discriminate]. cbn [bind] in Hv.
    destruct (squared_relative_error pow2 f_one _) as [e2 |] eqn:E2;
      [| discriminate]. cbn [bind] in Hv.
    destruct (squared_relative_error pow2 f_both _) as [e3 |] eqn:E3;
      [| discriminate]. cbn [bind] in Hv.
    assert (Ev : v = num_add (num_add (num_add (PyFloat 0.0) e1) e2) e3)
      by congruence.
    clear Hv. exists f_one, f_both, e1, e2, e3. repeat split; trivial.
    inversion Hnum as [| ? ? _ Hnum1]; subst.
    inversion Hnum1 as [| ? ? Hone Hnum2]; subst.
    inversion Hnum2 as [| ? ? Hboth _]; subst.
    rewrite !val_num_add.
    repeat apply FloatFacts.add_ge_zero.
    + reflexivity.
    + exact (squared_relative_error_ge_zero
               (PyFloat empty_focal) (PyFloat (-500.0)) e1
               eq_refl eq_refl eq_refl E1).
    + exact (squared_relative_error_ge_zero
               f_one (PyFloat 132.0) e2 (Hone _ eq_refl) eq_refl eq_refl E2).
    + exact (squared_relative_error_ge_zero
               f_both (PyFloat 55.0) e3 (Hboth _ eq_refl) eq_refl eq_refl E3).
  - intros e He. split.
    + destruct (is_np n); [| reflexivity].
      destruct (Hnp eq_refl) as [v Hv]. congruence.
    + destruct (predict_focals n) as [focals |] eqn:Hp.
      * right.
        destruct (predict_focals_shape n focals Hp) as (fo & fb & ->).
        rewrite (error_function_sum _ _ _ Hp) in He.
        destruct (squared_relative_error pow2 (PyFloat empty_focal) _)
          as [e1 |] eqn:E1; cbn [bind] in He;
          [| injection He as <-;
             now apply squared_relative_error_raises in E1].
        destruct (squared_relative_error pow2 fo _) as [e2 |] eqn:E2;
          cbn [bind] in He;
          [| injection He as <-;
             now apply squared_relative_error_raises in E2].
        destruct (squared_relative_error pow2 fb _) as [e3 |] eqn:E3;
          cbn [bind] in He;
          [discriminate
          | injection He as <-;
            now apply squared_relative_error_raises in E3].
      * left. unfold error_function in He. rewrite Hp in He.
        injection He as <-. now apply predict_focals_raises in Hp.
Qed.

End Cost.

(** A NumPy index of the fit interval, with the correctly rounded square. *)
Lemma error_function_cost_witness :
  (exists v, error_function mul_pow2 (NpFloat64 1.3) = OK v)
  /\ (forall v,
        error_function mul_pow2 (NpFloat64 1.3) = OK v ->
        exists f_one f_both e1 e2 e3,
          predict_focals (NpFloat64 1.3)
          = OK [ ("empty", VNum (PyFloat empty_focal));
                 ("one_filled", VNum f_one);
                 ("both_filled", VNum f_both) ]
          /\ squared_relative_error mul_pow2 (PyFloat empty_focal)
                                    (PyFloat (-500.0)) = OK e1
          /\ squared_relative_error mul_pow2 f_one (PyFloat 132.0) = OK e2
          /\ squared_relative_error mul_pow2 f_both (PyFloat 55.0) = OK e3
          /\ v = num_add (num_add (num_add (PyFloat 0.0) e1) e2) e3
          /\ (0 <=? val v) = true).
Proof.
  destruct (error_function_cost mul_pow2 mul_pow2_ge_zero mul_pow2_small
              (NpFloat64 1.3) eq_refl eq_refl) as (Hret & Hsum & _).
  split; [apply Hret; reflexivity | exact Hsum].
Defined.

(** Outside the fit interval: at the fill index 0.0 a Python float makes
    [error_function] raise ZeroDivisionError (the second surface of
    "both_filled" divides by [n_water * R_inner]). *)
Example error_function_at_zero :
  forall pow2, error_function pow2 (PyFloat 0) = Raise ZeroDivisionError.
Proof. intros pow2. vm_compute. reflexivity. Qed.

(** An infinite prediction, of either sign and either kind, costs [+inf]
    against each of the measured values. *)
Lemma infinite_prediction_costs_infinity (pow2 : float -> float) (v : num) :
  isinf v = true ->
  Forall (fun item =>
            exists c, error_term pow2 (VNum v) (snd item) = OK c
                      /\ val c = infinity)
         f_measured.
Proof.
  unfold isinf. intros H.
  apply FloatFacts.is_infinity_cases in H.
  destruct v as [x | x]; simpl in H; destruct H as [-> | ->];
    repeat constructor; eexists; split; vm_compute; reflexivity.
Qed.

(** At the script's initial guess, with the correctly rounded square (the
    C library's may differ from it in the last place). *)
Example error_function_at_default :
  error_function mul_pow2 n_water = OK (PyFloat 0.20616270293536126).
Proof. vm_compute. reflexivity. Qed.

(** * Further properties of [refract] *)

Section RefractErrors.

Variables n1 n2 R s : num.

Lemma refract_numpy_index_returns :
  is_np n1 || is_np n2 = true -> exists v, refract n1 n2 R s = OK v.
Proof.
  unfold refract, flat_image, focus_image, general_image, denominator.
  cbn [a_div a_sub a_mul a_one num_arith].
  destruct n1 as [x1 | x1], n2 as [x2 | x2]; simpl; try discriminate;
    intros _; destruct R as [r | r], s as [y | y]; simpl;
    repeat match goal with
           | |- context [if ?c then _ else _] => destruct c; simpl
           end;
    eexists; reflexivity.
Qed.

(** [refract] raises nothing but ZeroDivisionError, and only between two
    Python-float indices: as soon as [n1] or [n2] is a NumPy scalar every
    division of lines 38-41 is a NumPy division and the call returns. *)
Theorem refract_raises_between_python_indices :
  (forall e, refract n1 n2 R s = Raise e ->
             e = ZeroDivisionError /\ is_np n1 = false /\ is_np n2 = false)
  /\ (is_np n1 || is_np n2 = true -> exists v, refract n1 n2 R s = OK v).
Proof.
  split; [| exact refract_numpy_index_returns].
  intros e He. split; [now apply refract_raises in He |].
  destruct (is_np n1 || is_np n2) eqn:E.
  - destruct (refract_numpy_index_returns E) as [v Hv]. congruence.
  - now apply orb_false_elim in E.
Qed.

End RefractErrors.

(** An index-matched curved surface with the object at infinity divides by
    [n2 - n1 = 0]. *)
Lemma sub_self_is_zero (x : float) :
  is_finite x = true -> (x - x =? 0) = true.
Proof.
  unfold is_finite, is_infinity.
  rewrite FloatFacts.is_nan_spec, !FloatAxioms.eqb_spec, abs_spec, sub_spec,
    FloatFacts.Prim2SF_infinity, FloatFacts.Prim2SF_zero.
  destruct (Prim2SF x) as [sx | sx | | sx m e]; simpl; try discriminate.
  - now destruct sx.
  - intros _. rewrite Z.min_id. now rewrite Z.sub_diag.
Qed.

(** Between equal Python-float indices a curved surface met by an object at
    infinity ([s = np.inf]) raises ZeroDivisionError: line 40 divides by
    [n2 - n1], which is zero.  A NumPy index makes the same call return
    [n2 * R / 0.0]. *)
Theorem refract_matched_indices_at_infinity (x r : float) :
  is_finite x = true -> is_infinity r = false ->
  refract (PyFloat x) (PyFloat x) (PyFloat r) np_inf = Raise ZeroDivisionError
  /\ refract (NpFloat64 x) (PyFloat x) (PyFloat r) np_inf
     = OK (NpFloat64 (x * r / (x - x))).
Proof.
  intros Hx Hr. unfold refract, isinf, eq_inf, focus_image. simpl.
  rewrite Hr. split; [| reflexivity].
  now rewrite (sub_self_is_zero x Hx).
Qed.

(** Plexiglass on both sides of the outer surface. *)
Lemma refract_matched_indices_at_infinity_witness :
  refract (PyFloat 1.491) (PyFloat 1.491) (PyFloat 30.0) np_inf
  = Raise ZeroDivisionError
  /\ refract (NpFloat64 1.491) (PyFloat 1.491) (PyFloat 30.0) np_inf
     = OK (NpFloat64 (1.491 * 30.0 / (1.491 - 1.491))).
Proof.
  apply (refract_matched_indices_at_infinity 1.491 30.0); reflexivity.
Defined.

(** Air to glass at the front focal point: two Python floats raise, a NumPy
    index returns. *)
Lemma refract_raises_between_python_indices_witness :
  (ZeroDivisionError = ZeroDivisionError
   /\ is_np (PyFloat 1.0) = false /\ is_np (PyFloat 1.5) = false)
  /\ exists v,
      refract (PyFloat 1.0) (NpFloat64 1.5) (PyFloat 10.0) (PyFloat 20.0)
      = OK v.
Proof.
  split.
  - exact (proj1 (refract_raises_between_python_indices
                    (PyFloat 1.0) (PyFloat 1.5) (PyFloat 10.0) (PyFloat 20.0))
                 ZeroDivisionError eq_refl).
  - exact (proj2 (refract_raises_between_python_indices
                    (PyFloat 1.0) (NpFloat64 1.5) (PyFloat 10.0)
                    (PyFloat 20.0))
                 eq_refl).
Defined.

(** * The branches of [refract] in exact arithmetic *)

Section ExactBranches.

Local Open Scope Q_scope.

Variables n1 n2 R s : Q.

(** Line 40 in exact arithmetic: for an object at infinity the image distance
    [s' = n2 * R / (n2 - n1)] is the nonzero solution of
    [n2 / s' = (n2 - n1) / R], the surface equation with the object term
    gone. *)
Theorem focus_image_solves_surface_equation :
  ~ n2 == 0 -> ~ R == 0 -> ~ n2 == n1 ->
  exists s' : Q,
    focus_image n1 n2 R = OK s'
    /\ ~ s' == 0
    /\ n2 / s' == (n2 - n1) / R.
Proof.
  intros H2 HR Hn.
  assert (Hd : ~ n2 - n1 == 0).
  { intros E. apply Hn. rewrite <- (Qplus_0_l n1), <- E. ring. }
  exists (n2 * R / (n2 - n1)). split; [| split].
  - unfold focus_image. exact (Q_div_ok (n2 * R) _ Hd).
  - intros E. apply (Qmult_nonzero n2 R H2 HR).
    rewrite <- (Qmult_0_l (n2 - n1)), <- E. field. exact Hd.
  - field; repeat split; assumption.
Qed.

(** The value of line 41 in exact arithmetic. *)
Lemma general_image_value (m1 m2 r x : Q) :
  ~ m2 == 0 -> ~ r == 0 -> ~ x == 0 ->
  ~ (m2 - m1) / (m2 * r) - m1 / (m2 * x) == 0 ->
  general_image m1 m2 r x
  = OK (1 / ((m2 - m1) / (m2 * r) - m1 / (m2 * x))).
Proof.
  intros H2 HR Hs Hd. unfold general_image, denominator.
  rewrite !Q_div_ok by (apply Qmult_nonzero; assumption).
  cbn [bind]. exact (Q_div_ok 1 _ Hd).
Qed.

Lemma denominator_expanded :
  ~ n2 == 0 -> ~ R == 0 -> ~ s == 0 ->
  ~ (n2 - n1) / (n2 * R) - n1 / (n2 * s) == 0 ->
  ~ (n2 - n1) * s - n1 * R == 0.
Proof.
  intros H2 HR Hs Hd E. apply Hd.
  setoid_replace ((n2 - n1) / (n2 * R) - n1 / (n2 * s))
    with (((n2 - n1) * s - n1 * R) / (n2 * R * s))
    by (field; repeat split; assumption).
  rewrite E. field; repeat split; assumption.
Qed.

(** Lines 38 and 41 side by side, in exact arithmetic.  The flat branch
    returns [s_flat] with [n2 / s_flat = n1 / s]; the curved branch returns
    [s_curved] with [n2 / s_curved = (n2 - n1) / R - n2 / s_flat].  As [R]
    grows the curved branch therefore tends to [- s_flat]: the flat branch is
    the limit of the curved one with the sign reversed. *)
Theorem flat_image_against_general_image :
  ~ n1 == 0 -> ~ n2 == 0 -> ~ R == 0 -> ~ s == 0 ->
  ~ (n2 - n1) / (n2 * R) - n1 / (n2 * s) == 0 ->
  exists s_flat s_curved : Q,
    flat_image n1 n2 s = OK s_flat
    /\ general_image n1 n2 R s = OK s_curved
    /\ ~ s_flat == 0
    /\ n2 / s_flat == n1 / s
    /\ n2 / s_curved == (n2 - n1) / R - n2 / s_flat.
Proof.
  intros H1 H2 HR Hs Hd.
  pose proof (denominator_expanded H2 HR Hs Hd) as Hd'.
  exists (n2 / n1 * s), (1 / ((n2 - n1) / (n2 * R) - n1 / (n2 * s))).
  assert (Hf : ~ n2 / n1 * s == 0).
  { apply Qmult_nonzero; [| exact Hs].
    intros E. apply H2. rewrite <- (Qmult_0_l n1), <- E. field. exact H1. }
  split; [| split; [| split; [exact Hf | split]]].
  - unfold flat_image. rewrite (Q_div_ok n2 n1 H1). reflexivity.
  - now apply general_image_value.
  - field; repeat split; assumption.
  - field; repeat split; assumption.
Qed.

(** Only the ratio of the indices and the scale of the lengths matter: in
    exact arithmetic, multiplying both indices by [k] leaves the image
    distance of line 41 unchanged, and multiplying [R] and [s] by [k]
    multiplies it by [k]. *)
Theorem general_image_scaling (k : Q) :
  ~ k == 0 -> ~ n2 == 0 -> ~ R == 0 -> ~ s == 0 ->
  ~ (n2 - n1) / (n2 * R) - n1 / (n2 * s) == 0 ->
  exists s' s_indices s_lengths : Q,
    general_image n1 n2 R s = OK s'
    /\ general_image (k * n1) (k * n2) R s = OK s_indices
    /\ general_image n1 n2 (k * R) (k * s) = OK s_lengths
    /\ s_indices == s'
    /\ s_lengths == k * s'.
Proof.
  intros Hk H2 HR Hs Hd.
  pose proof (denominator_expanded H2 HR Hs Hd) as Hd'.
  assert (Hdi : ~ (k * n2 - k * n1) / (k * n2 * R) - k * n1 / (k * n2 * s)
                  == 0).
  { intros E. apply Hd. rewrite <- E. field; repeat split; assumption. }
  assert (Hdl : ~ (n2 - n1) / (n2 * (k * R)) - n1 / (n2 * (k * s)) == 0).
  { intros E. apply Hd.
    setoid_replace ((n2 - n1) / (n2 * R) - n1 / (n2 * s))
      with (k * ((n2 - n1) / (n2 * (k * R)) - n1 / (n2 * (k * s))))
      by (field; repeat split; assumption).
    rewrite E. ring. }
  exists (1 / ((n2 - n1) / (n2 * R) - n1 / (n2 * s))),
    (1 / ((k * n2 - k * n1) / (k * n2 * R) - k * n1 / (k * n2 * s))),
    (1 / ((n2 - n1) / (n2 * (k * R)) - n1 / (n2 * (k * s)))).
  split; [| split; [| split; [| split]]].
  - now apply general_image_value.
  - apply general_image_value; trivial. now apply Qmult_nonzero.
  - apply general_image_value; trivial; now apply Qmult_nonzero.
  - field; repeat split; try assumption;
      intros E; apply (Qmult_nonzero k _ Hk Hd'); rewrite <- E; ring.
  - field; repeat split; try assumption;
      intros E; apply (Qmult_nonzero k _ Hk Hd'); rewrite <- E; ring.
Qed.

End ExactBranches.

(** Air to glass, [R = 10]. *)
Lemma focus_image_solves_surface_equation_witness :
  exists s' : Q,
    focus_image 1%Q (3 # 2)%Q 10%Q = OK s'
    /\ ~ (s' == 0)%Q
    /\ ((3 # 2) / s' == ((3 # 2) - 1) / 10)%Q.
Proof.
  apply (focus_image_solves_surface_equation 1%Q (3 # 2)%Q 10%Q);
    vm_compute; discriminate.
Defined.

(** Air to glass, object at 30, flat against [R = 10]. *)
Lemma flat_image_against_general_image_witness :
  exists s_flat s_curved : Q,
    flat_image 1%Q (3 # 2)%Q 30%Q = OK s_flat
    /\ general_image 1%Q (3 # 2)%Q 10%Q 30%Q = OK s_curved
    /\ ~ (s_flat == 0)%Q
    /\ ((3 # 2) / s_flat == 1 / 30)%Q
    /\ ((3 # 2) / s_curved == ((3 # 2) - 1) / 10 - (3 # 2) / s_flat)%Q.
Proof.
  apply (flat_image_against_general_image 1%Q (3 # 2)%Q 10%Q 30%Q);
    vm_compute; discriminate.
Defined.

(** A factor of 1/1000 on both indices, and on both lengths (metres instead
    of millimetres). *)
Lemma general_image_scaling_witness :
  exists s' s_indices s_lengths : Q,
    general_image 1%Q (3 # 2)%Q 10%Q 30%Q = OK s'
    /\ general_image ((1 # 1000) * 1)%Q ((1 # 1000) * (3 # 2))%Q 10%Q 30%Q
       = OK s_indices
    /\ general_image 1%Q (3 # 2)%Q ((1 # 1000) * 10)%Q ((1 # 1000) * 30)%Q
       = OK s_lengths
    /\ (s_indices == s')%Q
    /\ (s_lengths == (1 # 1000) * s')%Q.
Proof.
  apply (general_image_scaling 1%Q (3 # 2)%Q 10%Q 30%Q (1 # 1000)%Q);
    vm_compute; discriminate.
Defined.

(** On binary64 values the two branches show the same reversal: a radius of
    1e300 gives about -30 where the flat surface gives +30. *)
Example flat_against_nearly_flat :
  refract (PyFloat 1.0) (PyFloat 1.5) np_inf (PyFloat 20.0) = OK (PyFloat 30)
  /\ refract (PyFloat 1.0) (PyFloat 1.5) (PyFloat 1e300) (PyFloat 20.0)
     = OK (PyFloat (-30)).
Proof. split; vm_compute; reflexivity. Qed.

(** * Further properties of [trace_system] *)

Section TracerShape.

Lemma trace_loop_ignores_last_t (len : Z) (last : surface) (t' : num)
      (front : list surface) :
  forall (i : Z) (s : num),
    trace_loop len i s (front ++ [with_t last t'])
    = trace_loop len i s (front ++ [last]).
Proof.
  induction front as [| surf front IH]; intros i s; simpl.
  - destruct (refract _ _ _ _); simpl; [| reflexivity].
    destruct (i =? len - 1)%Z; reflexivity.
  - destruct (refract _ _ _ _); simpl; [| reflexivity].
    destruct (i =? len - 1)%Z; [reflexivity | apply IH].
Qed.

(** The distance [t] of the last surface is never read: only the surfaces
    before it are followed by a translation. *)
Theorem trace_system_ignores_last_t (front : list surface) (last : surface)
        (t' : num) :
  trace_system (front ++ [with_t last t']) = trace_system (front ++ [last]).
Proof.
  unfold trace_system. rewrite !length_app. simpl List.length.
  apply trace_loop_ignores_last_t.
Qed.

(** [None] comes back for the empty sequence and for no other: a sequence
    with a surface in it returns a number or raises. *)
Theorem trace_system_none_iff_empty (surfaces : list surface) :
  trace_system surfaces = OK VNone <-> surfaces = [].
Proof.
  split.
  - intros H. destruct surfaces as [| surf rest]; [reflexivity |].
    apply trace_system_number in H as [x Hx]; [discriminate | discriminate].
  - intros ->. reflexivity.
Qed.

Lemma trace_loop_raises_at_python_surface (len : Z) (rest : list surface) :
  forall (i : Z) (s : num) (e : exception),
    trace_loop len i s rest = Raise e ->
    Exists (fun surf => is_np (n1 surf) = false /\ is_np (n2 surf) = false)
           rest.
Proof.
  induction rest as [| surf rest IH]; intros i s e; simpl; [discriminate |].
  destruct (refract _ _ _ _) as [s_prime |] eqn:E; cbn [bind].
  - destruct (i =? len - 1)%Z; [discriminate |].
    intros H. apply Exists_cons_tl. eapply IH, H.
  - intros _. apply Exists_cons_hd.
    destruct (is_np (n1 surf) || is_np (n2 surf)) eqn:K.
    + destruct (refract_numpy_index_returns _ _ (R surf) s K) as [v Hv].
      congruence.
    + now apply orb_false_elim in K.
Qed.

(** Where the tracer raises, it raises ZeroDivisionError, and some surface
    of the sequence lies between two Python-float indices; a sequence whose
    every surface has a NumPy index on one side returns a number. *)
Theorem trace_system_raises_at_python_surface (surfaces : list surface) :
  (forall e,
     trace_system surfaces = Raise e ->
     e = ZeroDivisionError
     /\ Exists (fun surf => is_np (n1 surf) = false /\ is_np (n2 surf) = false)
               surfaces)
  /\ (surfaces <> [] ->
      Forall (fun surf => is_np (n1 surf) || is_np (n2 surf) = true) surfaces ->
      exists x, trace_system surfaces = OK (VNum x)).
Proof.
  assert (H : forall e,
             trace_system surfaces = Raise e ->
             e = ZeroDivisionError
             /\ Exists (fun surf =>
                          is_np (n1 surf) = false /\ is_np (n2 surf) = false)
                       surfaces).
  { intros e He. split; [now apply trace_system_raises in He |].
    eapply trace_loop_raises_at_python_surface, He. }
  split; [exact H |].
  intros Hne Hall.
  destruct (trace_system surfaces) as [v | e] eqn:E.
  - apply trace_system_number in E as [x ->]; [| exact Hne]. now exists x.
  - destruct (H e eq_refl) as [_ Hex].
    apply Exists_exists in Hex as (surf & Hin & H1 & H2).
    rewrite Forall_forall in Hall. specialize (Hall surf Hin).
    rewrite H1, H2 in Hall. discriminate.
Qed.

End TracerShape.

(** A water-to-glass surface traced alone. *)
Lemma trace_system_raises_at_python_surface_witness :
  exists x,
    trace_system [Surface (NpFloat64 1.333) (PyFloat 1.491) (PyFloat 27.0)
                          (PyFloat 3.0)]
    = OK (VNum x).
Proof.
  apply (proj2 (trace_system_raises_at_python_surface
                  [Surface (NpFloat64 1.333) (PyFloat 1.491) (PyFloat 27.0)
                           (PyFloat 3.0)])).
  - discriminate.
  - repeat constructor.
Defined.

(** ** A plate in front *)

Section Plate.

Lemma finite_sub_infinity (x : float) :
  is_finite x = true -> x - infinity = neg_infinity.
Proof.
  unfold is_finite, is_infinity. intros H.
  apply Prim2SF_inj. revert H.
  rewrite FloatFacts.is_nan_spec, FloatAxioms.eqb_spec, abs_spec, sub_spec,
    FloatFacts.Prim2SF_infinity, FloatFacts.Prim2SF_neg_infinity.
  destruct (Prim2SF x) as [sx | sx | | sx m e]; simpl; try discriminate;
    reflexivity.
Qed.

(** Two flat surfaces traced from infinity return [-inf], not [np.inf]: the
    first returns [np.inf], the translation turns it into [t - inf = -inf],
    which the test [s == np.inf] of the second does not catch, and the product
    [(n2 / n1) * s] keeps it at [-inf] for a positive index ratio. *)
Theorem trace_system_plate (a b : surface) :
  isinf (R a) = true -> isinf (R b) = true ->
  is_finite (val (t a)) = true ->
  (0 <? val (n1 b)) = true -> (0 <? val (n2 b) / val (n1 b)) = true ->
  exists x, trace_system [a; b] = OK (VNum x) /\ val x = neg_infinity.
Proof.
  intros Ha Hb Ht H1 Hq.
  exists (num_mul (lift2 PrimFloat.div (n2 b) (n1 b)) (num_sub (t a) np_inf)).
  assert (Hs : val (num_sub (t a) np_inf) = neg_infinity).
  { destruct (t a) as [y | y]; simpl in *; now apply finite_sub_infinity. }
  split.
  - unfold trace_system, trace_loop. simpl List.length. cbn [Z.of_nat].
    unfold refract at 1. rewrite Ha. unfold eq_inf at 1. simpl val at 1.
    change (infinity =? infinity) with true. cbn [bind].
    change (0 =? Z.pos 2 - 1)%Z with false. cbn iota.
    unfold refract, eq_inf. rewrite Hb, Hs.
    change (neg_infinity =? infinity) with false. cbn iota.
    unfold flat_image. cbn [a_div a_mul num_arith].
    apply FloatFacts.positive_not_zero in H1.
    destruct (n1 b) as [y1 | y1], (n2 b) as [y2 | y2]; simpl in *;
      try rewrite H1; reflexivity.
  - transitivity (val (n2 b) / val (n1 b) * val (num_sub (t a) np_inf)).
    + destruct (n1 b), (n2 b), (num_sub (t a) np_inf); reflexivity.
    + rewrite Hs. now apply FloatFacts.positive_mul_neg_infinity.
Qed.

End Plate.

(** The partition of the container, taken alone. *)
Lemma trace_system_plate_witness :
  exists x,
    trace_system [Surface n_air n_plexi np_inf partition_thickness;
                  Surface n_plexi n_air np_inf cavity_thickness]
    = OK (VNum x)
    /\ val x = neg_infinity.
Proof.
  apply (trace_system_plate
           (Surface n_air n_plexi np_inf partition_thickness)
           (Surface n_plexi n_air np_inf cavity_thickness));
    reflexivity.
Defined.

(** * Further properties of [build_systems] and [predict_focals] *)

Section BuilderChain.

Variable n : num.   (* the trial fill index *)

(** In each of the three systems the light enters from air and leaves into
    air, and the medium behind each surface is the medium in front of the
    next one, whatever the fill index. *)
Theorem build_systems_media_chain :
  Forall (fun entry =>
            chained (snd entry)
            /\ (exists first rest,
                  snd entry = first :: rest /\ n1 first = n_air)
            /\ (exists front final,
                  snd entry = (front ++ [final])%list /\ n2 final = n_air))
         (build_systems n).
Proof.
  unfold build_systems.
  repeat constructor; simpl; repeat split;
    try (eexists _, _; split; reflexivity);
    eexists [_; _; _; _; _], _; split; reflexivity.
Qed.

End BuilderChain.

Section PredictorEntries.

Lemma dict_get_dict_map {A B : Type} (f : A -> exn B) (d : dict A) :
  forall (r : dict B) (key : string),
    dict_map f d = OK r ->
    dict_get r key = (x <- dict_get d key ;; f x).
Proof.
  induction d as [| [k x] d IH]; intros r key; simpl.
  - now intros [= <-].
  - destruct (f x) as [y |] eqn:E; [| discriminate]. cbn [bind].
    destruct (dict_map f d) as [r' |]; [| discriminate]. cbn [bind].
    intros [= <-]. simpl.
    destruct (String.eqb k key); [cbn [bind]; now rewrite E | now apply IH].
Qed.

(** What the predictor returns under a name is the trace of the system the
    builder made under that name; a name the builder does not use is missing
    from both (KeyError). *)
Theorem predict_focals_entry (n : num) (focals : dict pyval) (name : string) :
  predict_focals n = OK focals ->
  dict_get focals name
  = (sys <- dict_get (build_systems n) name ;; trace_system sys).
Proof. apply dict_get_dict_map. Qed.

(** The predictor raises nothing but ZeroDivisionError, only for a
    Python-float fill index, and never from the "empty" system: the exception
    is the one the trace of "one_filled" or of "both_filled" raises.  For a
    NumPy fill index it returns. *)
Theorem predict_focals_raises_for_python_index (n : num) :
  (forall e,
     predict_focals n = Raise e ->
     e = ZeroDivisionError /\ is_np n = false
     /\ ((sys <- dict_get (build_systems n) "one_filled" ;; trace_system sys)
         = Raise e
         \/ (sys <- dict_get (build_systems n) "both_filled" ;;
             trace_system sys) = Raise e))
  /\ (is_np n = true -> exists focals, predict_focals n = OK focals).
Proof.
  assert (Hnp : is_np n = true -> exists focals, predict_focals n = OK focals).
  { destruct n as [x | x]; [discriminate | intros _].
    apply predict_focals_numpy_returns. }
  split; [| exact Hnp].
  intros e He. split; [now apply predict_focals_raises in He |]. split.
  - destruct (is_np n); [| reflexivity].
    destruct (Hnp eq_refl) as [focals Hf]. congruence.
  - revert He. unfold predict_focals, build_systems.
    cbn [dict_map dict_get String.eqb Ascii.eqb Bool.eqb].
    match goal with
    | |- context [bind (trace_system ?l) _] =>
        replace (trace_system l) with (OK (VNum (PyFloat empty_focal)))
          by (vm_compute; reflexivity)
    end.
    cbn [bind].
    destruct (trace_system _) as [v2 |] eqn:E2; cbn [bind].
    + destruct (trace_system _) as [v3 |] eqn:E3 in |- *; cbn [bind];
        [discriminate |].
      intros [= <-]. right. reflexivity.
    + intros [= <-]. left. reflexivity.
Qed.

End PredictorEntries.

(** At fill index 0.0 the second surface of "both_filled" divides by
    [n_water * R_inner]. *)
Lemma predict_focals_raises_for_python_index_witness :
  ZeroDivisionError = ZeroDivisionError /\ is_np (PyFloat 0) = false
  /\ ((sys <- dict_get (build_systems (PyFloat 0)) "one_filled" ;;
       trace_system sys) = Raise ZeroDivisionError
      \/ (sys <- dict_get (build_systems (PyFloat 0)) "both_filled" ;;
          trace_system sys) = Raise ZeroDivisionError).
Proof.
  apply (proj1 (predict_focals_raises_for_python_index (PyFloat 0))).
  vm_compute. reflexivity.
Defined.

(** The entry "both_filled" at the script's initial guess. *)
Lemma predict_focals_entry_witness :
  dict_get [ ("empty", VNum (PyFloat (-439.1120324543771)));
             ("one_filled", VNum (PyFloat 106.17211436938376));
             ("both_filled", VNum (PyFloat 33.48324227392718)) ]
           "both_filled"
  = (sys <- dict_get (build_systems n_water) "both_filled" ;;
     trace_system sys).
Proof.
  apply (predict_focals_entry n_water). vm_compute. reflexivity.
Defined.

(** * Further properties of the cost *)

Module SignFacts.

Lemma binary_round_aux_opp (s : bool) (m e : Z) (l : location) :
  binary_round_aux prec emax (negb s) m e l
  = SFopp (binary_round_aux prec emax s m e l).
Proof.
  unfold binary_round_aux.
  destruct (shr_fexp prec emax m e l) as [mrs' e'].
  destruct (shr_fexp prec emax _ e' loc_Exact) as [mrs'' e''].
  destruct (shr_m mrs''); simpl; trivial.
  destruct (_ <=? _)%Z; reflexivity.
Qed.

Lemma SFdiv_opp_r (x y : spec_float) :
  SF64div x (SFopp y) = SFopp (SF64div x y).
Proof.
  destruct x as [sx | sx | | sx mx ex]; destruct y as [sy | sy | | sy my ey];
    simpl; trivial; try (now destruct sx, sy).
  destruct (SFdiv_core_binary prec emax (Z.pos mx) ex (Z.pos my) ey)
    as [[mz ez] lz].
  rewrite <- binary_round_aux_opp. now destruct sx, sy.
Qed.

Lemma SFmul_opp_opp (x : spec_float) :
  SF64mul (SFopp x) (SFopp x) = SF64mul x x.
Proof. destruct x as [s | s | | s m e]; simpl; trivial; now destruct s. Qed.

Lemma abs_opp (x : float) : abs (- x) = abs x.
Proof.
  apply Prim2SF_inj. rewrite !abs_spec, opp_spec. now destruct (Prim2SF x).
Qed.

Lemma div_opp_r (x y : float) : x / - y = - (x / y).
Proof.
  apply Prim2SF_inj. rewrite opp_spec, !div_spec, opp_spec.
  apply SFdiv_opp_r.
Qed.

Lemma mul_opp_opp (x : float) : - x * - x = x * x.
Proof.
  apply Prim2SF_inj. rewrite !mul_spec, opp_spec. apply SFmul_opp_opp.
Qed.

Lemma eqb_zero_opp (x : float) : (- x =? 0) = (x =? 0).
Proof.
  rewrite !FloatAxioms.eqb_spec, opp_spec, FloatFacts.Prim2SF_zero.
  destruct (Prim2SF x) as [s | s | | s m e]; simpl; trivial; now destruct s.
Qed.

Lemma is_nan_opp (x : float) : is_nan (- x) = is_nan x.
Proof.
  rewrite !FloatFacts.is_nan_spec, opp_spec. now destruct (Prim2SF x).
Qed.

Lemma is_infinity_opp (x : float) : is_infinity (- x) = is_infinity x.
Proof. unfold is_infinity. now rewrite abs_opp. Qed.

Lemma nan_opp (x : float) : is_nan x = true -> - x = x.
Proof.
  rewrite FloatFacts.is_nan_spec. intros H.
  apply Prim2SF_inj. rewrite opp_spec. now destruct (Prim2SF x).
Qed.

Lemma is_finite_opp (x : float) : is_finite (- x) = is_finite x.
Proof.
  unfold is_finite, is_infinity. rewrite abs_opp.
  rewrite !FloatFacts.is_nan_spec, opp_spec. now destruct (Prim2SF x).
Qed.

End SignFacts.

Section CostSigns.

Lemma num_abs_opp (a : num) : num_abs (num_opp a) = num_abs a.
Proof. destruct a; simpl; now rewrite SignFacts.abs_opp. Qed.

Lemma num_div_opp_r (a b : num) :
  num_div a (num_opp b) = (q <- num_div a b ;; OK (num_opp q)).
Proof.
  destruct a as [x | x], b as [y | y]; simpl;
    rewrite ?SignFacts.eqb_zero_opp, SignFacts.div_opp_r; trivial.
  now destruct (y =? 0).
Qed.

Variable pow2 : float -> float.   (* the C library's pow(x, 2.0) *)

Lemma c_pow2_opp (x : float) : c_pow2 pow2 (- x) = c_pow2 pow2 x.
Proof.
  unfold c_pow2.
  rewrite SignFacts.is_nan_opp, SignFacts.is_infinity_opp,
    SignFacts.eqb_zero_opp, SignFacts.abs_opp.
  destruct (is_nan x) eqn:E; [| reflexivity].
  now apply SignFacts.nan_opp.
Qed.

Lemma num_pow2_opp (q : num) :
  num_pow2 pow2 (num_opp q) = num_pow2 pow2 q.
Proof.
  destruct q as [x | x]; cbn [num_opp num_pow2].
  - rewrite SignFacts.is_nan_opp, SignFacts.is_infinity_opp,
      SignFacts.eqb_zero_opp, SignFacts.abs_opp.
    destruct (is_nan x) eqn:E; [| reflexivity].
    now rewrite (SignFacts.nan_opp x E).
  - now rewrite c_pow2_opp.
Qed.

(** The term of line 111 does not see signs: negating the prediction, or
    negating the measured value, leaves it unchanged (value or exception). *)
Theorem error_term_sign_blind (f_model f_meas : num) :
  error_term pow2 (VNum (num_opp f_model)) f_meas
  = error_term pow2 (VNum f_model) f_meas
  /\ error_term pow2 (VNum f_model) (num_opp f_meas)
     = error_term pow2 (VNum f_model) f_meas.
Proof.
  unfold error_term, py_abs. cbn [bind]. split.
  - now rewrite num_abs_opp.
  - rewrite num_abs_opp, num_div_opp_r.
    destruct (num_div _ f_meas) as [q |]; cbn [bind]; [| reflexivity].
    apply num_pow2_opp.
Qed.

End CostSigns.

(** An infinite prediction from a NumPy trace. *)
Lemma infinite_prediction_costs_infinity_witness :
  Forall (fun item =>
            exists c, error_term mul_pow2 (VNum (NpFloat64 neg_infinity))
                                 (snd item) = OK c
                      /\ val c = infinity)
         f_measured.
Proof.
  apply (infinite_prediction_costs_infinity mul_pow2
           (NpFloat64 neg_infinity)).
  reflexivity.
Defined.

(** * An object on the vertex *)

Section ObjectAtVertex.

Lemma finite_mul_zero (x z : float) :
  is_finite x = true -> is_zero z = true -> (x * z =? 0) = true.
Proof.
  unfold is_finite, is_infinity, is_zero, zero.
  rewrite FloatFacts.is_nan_spec, !FloatAxioms.eqb_spec, abs_spec, mul_spec,
    FloatFacts.Prim2SF_infinity, FloatFacts.Prim2SF_zero.
  destruct (Prim2SF x) as [sx | sx | | sx m e];
    destruct (Prim2SF z) as [sz | sz | | sz mz ez];
    simpl; try discriminate; trivial; now destruct sz.
Qed.

(** With Python floats, a curved surface met by an object on its vertex
    ([s] is a zero, as [t - s'] is when an image falls on the next vertex)
    raises ZeroDivisionError: line 41 divides [n1] by [n2 * s = 0]. *)
Theorem refract_object_at_vertex (x1 x2 r z : float) :
  is_finite x2 = true -> is_infinity r = false -> is_zero z = true ->
  refract (PyFloat x1) (PyFloat x2) (PyFloat r) (PyFloat z)
  = Raise ZeroDivisionError.
Proof.
  intros H2 Hr Hz.
  assert (Hs : (z =? infinity) = false).
  { destruct (FloatFacts.is_zero_cases z Hz) as [-> | ->]; reflexivity. }
  unfold refract, isinf, eq_inf. simpl val. rewrite Hr, Hs.
  unfold general_image, denominator. cbn [a_div a_sub a_mul a_one num_arith].
  simpl. destruct (x2 * r =? 0); [reflexivity |]. cbn [bind].
  now rewrite (finite_mul_zero x2 z H2 Hz).
Qed.

End ObjectAtVertex.

(** The inner surface of the container with the object on its vertex. *)
Lemma refract_object_at_vertex_witness :
  refract (PyFloat 1.491) (PyFloat 1.0) (PyFloat 27.0) (PyFloat 0)
  = Raise ZeroDivisionError.
Proof.
  apply (refract_object_at_vertex 1.491 1.0 27.0 0); reflexivity.
Defined.

(** The same call with a NumPy index returns a zero image distance. *)
Example refract_object_at_vertex_numpy :
  refract (PyFloat 1.491) (NpFloat64 1.0) (PyFloat 27.0) (PyFloat 0)
  = OK (NpFloat64 (-0)).
Proof. vm_compute. reflexivity. Qed.
